(** * The randomized optimization drivers of mlrose ([algorithms.py])

    A shallow embedding of [hill_climb], [random_hill_climb],
    [simulated_annealing], [genetic_alg] and [mimic], and the properties of
    their control loops.

    The drivers talk to an optimization problem object only through its
    methods.  The object, together with NumPy's global random generator, is
    the mutable world [W] that every call threads through; a method that
    mutates the object is a function [W -> W], one that also returns a value
    is [W -> A * W], and an accessor is [W -> A].

    Python floats are modelled by exact numbers: fitness values and
    temperatures are rationals, the best-fitness tracker of the restart
    drivers adds the two infinities (it starts at [-1*np.inf]), and [np.exp]
    is the real exponential flushed to 0.0 where a double underflows;
    rounding is not modelled.  The restart drivers are given a second time,
    in the module [Extended], for a problem whose fitness is any float,
    infinite or NaN.  Loops carry a fuel that bounds the number of
    iterations; a loop hands back the iterations it performed, in order,
    also when the fuel runs out. *)

From Stdlib Require Import List Bool Arith ZArith QArith Qreals Reals Lra Lia.
From Stdlib Require Import Sorted.
Import ListNotations.

(** ** Floats *)

Module Float.

Inductive pyfloat : Type :=
| NegInf
| Fin (q : Q)
| PosInf
| NaN.

(** [a > b] on rationals. *)
Definition Qgtb (a b : Q) : bool := negb (Qle_bool a b).

(** [a > b] on floats; every comparison with NaN is false. *)
Definition gtb (a b : pyfloat) : bool :=
  match a, b with
  | NaN, _ => false
  | _, NaN => false
  | NegInf, _ => false
  | Fin _, NegInf => true
  | Fin x, Fin y => Qgtb x y
  | Fin _, PosInf => false
  | PosInf, PosInf => false
  | PosInf, _ => true
  end.

(** [q * inf] for the infinity of sign [positive]; [0 * inf] is NaN. *)
Definition times_inf (q : Q) (positive : bool) : pyfloat :=
  match Qnum q with
  | Z0 => NaN
  | Zpos _ => if positive then PosInf else NegInf
  | Zneg _ => if positive then NegInf else PosInf
  end.

Definition mul (a b : pyfloat) : pyfloat :=
  match a, b with
  | NaN, _ => NaN
  | _, NaN => NaN
  | Fin x, Fin y => Fin (x * y)
  | Fin x, PosInf => times_inf x true
  | Fin x, NegInf => times_inf x false
  | PosInf, Fin y => times_inf y true
  | NegInf, Fin y => times_inf y false
  | PosInf, PosInf => PosInf
  | NegInf, NegInf => PosInf
  | PosInf, NegInf => NegInf
  | NegInf, PosInf => NegInf
  end.

Definition neg (a : pyfloat) : pyfloat :=
  match a with
  | NegInf => PosInf
  | Fin x => Fin (- x)
  | PosInf => NegInf
  | NaN => NaN
  end.

(** Numeric equality of floats that are not NaN: rationals are compared by
    value, not by representation. *)
Definition eqv (a b : pyfloat) : Prop :=
  match a, b with
  | NegInf, NegInf => True
  | Fin x, Fin y => x == y
  | PosInf, PosInf => True
  | _, _ => False
  end.

(** [a >= b] on floats that are not NaN. *)
Definition ge (a b : pyfloat) : Prop :=
  match a, b with
  | NaN, _ => False
  | _, NaN => False
  | PosInf, _ => True
  | _, NegInf => True
  | Fin x, Fin y => y <= x
  | _, _ => False
  end.

(** The values a best-fitness tracker can hold: [-inf] or a fitness. *)
Definition tracked (a : pyfloat) : Prop :=
  match a with
  | NegInf => True
  | Fin _ => True
  | _ => False
  end.

(** [u < p] for a rational [u] and a real [p]: the test
    [np.random.uniform() < prob]. *)
Definition Rltb (u : Q) (p : R) : bool :=
  if Rlt_dec (Q2R u) p then true else false.

End Float.

Import Float.

(** ** How a call ends *)

Inductive outcome (A : Type) : Type :=
| Returned (a : A)
| Raised        (* an IndexError of the driver's own indexing *)
| NoFuel.       (* still running when the fuel ran out *)

Arguments Returned {A} a.
Arguments Raised {A}.
Arguments NoFuel {A}.

Definition outcome_map {A B : Type} (f : A -> B) (o : outcome A) : outcome B :=
  match o with
  | Returned a => Returned (f a)
  | Raised => Raised
  | NoFuel => NoFuel
  end.

Definition finished {A : Type} (o : outcome A) : bool :=
  match o with
  | NoFuel => false
  | _ => true
  end.

(** ** The problem object and NumPy *)

(** The methods of the optimization problem that the drivers call. *)
Class Problem (W St : Type) : Type := {
  reset : W -> W;
  find_neighbors : W -> W;
  best_neighbor : W -> St;
  random_neighbor : W -> St * W;
  eval_fitness : W -> St -> Q;
  get_fitness : W -> Q;
  get_state : W -> St;
  set_state : St -> W -> W;
  get_maximize : W -> Q;
  random_pop : nat -> W -> W;
  eval_mate_probs : W -> W;
  get_mate_probs : W -> list Q;
  reproduce : St -> St -> Q -> W -> St * W;
  get_population : W -> list St;
  set_population : list St -> W -> W;
  best_child : W -> St;
  find_top_pct : Q -> W -> W;
  eval_node_probs : W -> W;
  sample_pop : nat -> W -> list St * W
}.

(** What the drivers use of NumPy besides [np.exp] and [np.inf]:
    [np.random.uniform()], [np.random.choice(n, size=2, p=probs)] and the
    array method [astype(int)]. *)
Class Numpy (W St : Type) : Type := {
  uniform : W -> Q * W;
  choice : nat -> list Q -> W -> (nat * nat) * W;
  astype_int : St -> St
}.

(** The same problem reporting another orientation. *)
Definition with_maximize {W St : Type} (m : W -> Q) (P : Problem W St)
  : Problem W St :=
  {| reset := reset;
     find_neighbors := find_neighbors;
     best_neighbor := best_neighbor;
     random_neighbor := random_neighbor;
     eval_fitness := eval_fitness;
     get_fitness := get_fitness;
     get_state := get_state;
     set_state := set_state;
     get_maximize := m;
     random_pop := random_pop;
     eval_mate_probs := eval_mate_probs;
     get_mate_probs := get_mate_probs;
     reproduce := reproduce;
     get_population := get_population;
     set_population := set_population;
     best_child := best_child;
     find_top_pct := find_top_pct;
     eval_node_probs := eval_node_probs;
     sample_pop := sample_pop |}.

(** ** The drivers *)

Section Drivers.

Context {W St : Type} {P : Problem W St} {NP : Numpy W St}.

(** One pass through the body of a neighbour loop ([hill_climb],
    [random_hill_climb]). *)
Record iteration : Type := {
  it_at : W;             (* the world when the candidate is compared *)
  it_fitness : Q;        (* problem.get_fitness() at the comparison *)
  it_next_state : St;    (* next_state *)
  it_next_fitness : Q;   (* next_fitness *)
  it_accepted : bool;    (* problem.set_state(next_state) was called *)
  it_world : W           (* the world when the pass ends *)
}.

(** Puts one more pass in front of what the rest of the loop did. *)
Definition log {I A : Type} (i : I) (rest : list I * outcome A)
  : list I * outcome A :=
  (i :: fst rest, snd rest).

(** The pair (best_state, best_fitness) of the restart drivers. *)
Record tracker : Type := {
  best_state : option St;
  best_fitness : pyfloat
}.

(** best_fitness = -1*np.inf; best_state = None *)
Definition tracker_init : tracker :=
  {| best_state := None; best_fitness := mul (Fin (-1 # 1)) PosInf |}.

(** if problem.get_fitness() > best_fitness: ... *)
Definition update_best (w : W) (b : tracker) : tracker :=
  if gtb (Fin (get_fitness w)) (best_fitness b)
  then {| best_state := Some (get_state w);
          best_fitness := Fin (get_fitness w) |}
  else b.

(** One restart: the passes of its loop and how the loop ended. *)
Record restart : Type := {
  rs_start : W;          (* the world after problem.reset() *)
  rs_trace : list iteration;
  rs_end : outcome W
}.

(** What a driver hands back: the world and (best_state, best_fitness). *)
Definition result : Type := (W * (option St * pyfloat))%type.

(** best_fitness = problem.get_maximize()*best_fitness *)
Definition orient (wb : W * tracker) : result :=
  (fst wb,
   (best_state (snd wb),
    mul (Fin (get_maximize (fst wb))) (best_fitness (snd wb)))).

(** *** hill_climb *)

(** The [while True] loop of one restart. *)
Fixpoint hc_loop (fuel : nat) (w : W) : list iteration * outcome W :=
  match fuel with
  | O => ([], NoFuel)
  | S fuel' =>
      let w1 := find_neighbors w in
      let next_state := best_neighbor w1 in
      let next_fitness := eval_fitness w1 next_state in
      if Qgtb next_fitness (get_fitness w1) then
        let w2 := set_state next_state w1 in
        log {| it_at := w1; it_fitness := get_fitness w1;
               it_next_state := next_state;
               it_next_fitness := next_fitness; it_accepted := true;
               it_world := w2 |}
            (hc_loop fuel' w2)
      else
        ([{| it_at := w1; it_fitness := get_fitness w1;
               it_next_state := next_state;
             it_next_fitness := next_fitness; it_accepted := false;
             it_world := w1 |}],
         Returned w1)
  end.

(** The [for _ in range(restarts)] loop; [loop] is the loop of one restart. *)
Fixpoint restarts_loop (loop : W -> list iteration * outcome W)
    (restarts : nat) (w : W) (b : tracker)
  : list restart * outcome (W * tracker) :=
  match restarts with
  | O => ([], Returned (w, b))
  | S n =>
      let run := loop (reset w) in
      match snd run with
      | Returned w1 =>
          log {| rs_start := reset w; rs_trace := fst run;
                 rs_end := Returned w1 |}
              (restarts_loop loop n w1 (update_best w1 b))
      | Raised =>
          ([{| rs_start := reset w; rs_trace := fst run; rs_end := Raised |}],
           Raised)
      | NoFuel =>
          ([{| rs_start := reset w; rs_trace := fst run; rs_end := NoFuel |}],
           NoFuel)
      end
  end.

Definition hill_climb_internal (fuel : nat) (w : W) (restarts : nat)
  : list restart * outcome (W * tracker) :=
  restarts_loop (hc_loop fuel) restarts w tracker_init.

Definition hill_climb (fuel : nat) (w : W) (restarts : nat)
  : list restart * outcome result :=
  let run := hill_climb_internal fuel w restarts in
  (fst run, outcome_map orient (snd run)).

(** *** random_hill_climb *)

(** The [while attempts < max_attempts] loop of one restart. *)
Fixpoint rhc_loop (max_attempts : nat) (fuel : nat) (w : W) (attempts : nat)
  : list iteration * outcome W :=
  if attempts <? max_attempts then
    match fuel with
    | O => ([], NoFuel)
    | S fuel' =>
        let next_state := fst (random_neighbor w) in
        let w1 := snd (random_neighbor w) in
        let next_fitness := eval_fitness w1 next_state in
        if Qgtb next_fitness (get_fitness w1) then
          let w2 := set_state next_state w1 in
          log {| it_at := w1; it_fitness := get_fitness w1;
               it_next_state := next_state;
                 it_next_fitness := next_fitness; it_accepted := true;
                 it_world := w2 |}
              (rhc_loop max_attempts fuel' w2 0)
        else
          log {| it_at := w1; it_fitness := get_fitness w1;
               it_next_state := next_state;
                 it_next_fitness := next_fitness; it_accepted := false;
                 it_world := w1 |}
              (rhc_loop max_attempts fuel' w1 (attempts + 1))
    end
  else ([], Returned w).

Definition random_hill_climb_internal (fuel : nat) (w : W)
    (max_attempts restarts : nat) : list restart * outcome (W * tracker) :=
  restarts_loop (fun w0 => rhc_loop max_attempts fuel w0 0) restarts w
                tracker_init.

Definition random_hill_climb (fuel : nat) (w : W) (max_attempts restarts : nat)
  : list restart * outcome result :=
  let run := random_hill_climb_internal fuel w max_attempts restarts in
  (fst run, outcome_map orient (snd run)).

(** What the single-run drivers hand back:
    best_fitness = problem.get_maximize()*problem.get_fitness();
    best_state = problem.get_state(), passed through [cast]. *)
Definition report (cast : St -> St) (w : W) : result :=
  (w,
   (Some (cast (get_state w)),
    mul (Fin (get_maximize w)) (Fin (get_fitness w)))).

(** *** simulated_annealing *)

(** One pass through the body of the annealing loop, for a temperature that
    is not zero.  Every such pass divides [sa_delta] by [sa_temp] and applies
    [np.exp] to the quotient [sa_exponent]; only a pass with a draw compares
    the result with a random number. *)
Record sa_iteration : Type := {
  sa_time : nat;           (* _t *)
  sa_temp : Q;             (* temp, the divisor of delta_e/temp *)
  sa_fitness : Q;          (* problem.get_fitness() *)
  sa_next_fitness : Q;     (* next_fitness *)
  sa_delta : Q;            (* delta_e *)
  sa_exponent : Q;         (* delta_e/temp, the argument of np.exp *)
  sa_draw : option Q;      (* np.random.uniform(), when it was called *)
  sa_accepted : bool;      (* problem.set_state(next_state) was called *)
  sa_world : W             (* the world when the pass ends *)
}.

(** Where [np.exp] underflows.  The least positive double is 2^-1074, and
    [np.exp] rounds the exponential to the nearest double: a value at or
    below half of the least positive double is returned as 0.0.  That is so
    for the exponents below about -745.13. *)
Definition underflow : R := (/ IZR (2 ^ 1075))%R.

(** prob = np.exp(delta_e/temp) on doubles: the exponential, and 0.0 at an
    exponent where it underflows.  (For a large positive exponent [np.exp]
    gives [inf]; a number below 1 is below [inf] as it is below the
    exponential, so the loop decides the same.) *)
Definition boltzmann (exponent : Q) : R :=
  if Rle_dec (exp (Q2R exponent)) underflow then 0%R
  else exp (Q2R exponent).

Fixpoint sa_loop (schedule : nat -> Q) (max_attempts : nat) (fuel : nat)
    (w : W) (t attempts : nat) : list sa_iteration * outcome W :=
  if attempts <? max_attempts then
    let temp := schedule t in
    if Qeq_bool temp 0 then ([], Returned w)
    else
      match fuel with
      | O => ([], NoFuel)
      | S fuel' =>
          let next_state := fst (random_neighbor w) in
          let w1 := snd (random_neighbor w) in
          let next_fitness := eval_fitness w1 next_state in
          let delta_e := next_fitness - get_fitness w1 in
          let prob := boltzmann (delta_e / temp) in
          if Qgtb delta_e 0 then
            let w2 := set_state next_state w1 in
            log {| sa_time := t; sa_temp := temp;
                   sa_fitness := get_fitness w1;
                   sa_next_fitness := next_fitness; sa_delta := delta_e;
                   sa_exponent := delta_e / temp; sa_draw := None;
                   sa_accepted := true; sa_world := w2 |}
                (sa_loop schedule max_attempts fuel' w2 (t + 1) 0)
          else
            let u := fst (uniform w1) in
            let w2 := snd (uniform w1) in
            if Rltb u prob then
              let w3 := set_state next_state w2 in
              log {| sa_time := t; sa_temp := temp;
                     sa_fitness := get_fitness w1;
                     sa_next_fitness := next_fitness; sa_delta := delta_e;
                     sa_exponent := delta_e / temp; sa_draw := Some u;
                     sa_accepted := true; sa_world := w3 |}
                  (sa_loop schedule max_attempts fuel' w3 (t + 1) 0)
            else
              log {| sa_time := t; sa_temp := temp;
                     sa_fitness := get_fitness w1;
                     sa_next_fitness := next_fitness; sa_delta := delta_e;
                     sa_exponent := delta_e / temp; sa_draw := Some u;
                     sa_accepted := false; sa_world := w2 |}
                  (sa_loop schedule max_attempts fuel' w2 (t + 1)
                           (attempts + 1))
      end
  else ([], Returned w).

Definition simulated_annealing (fuel : nat) (w : W) (schedule : nat -> Q)
    (max_attempts : nat) : list sa_iteration * outcome result :=
  let run := sa_loop schedule max_attempts fuel (reset w) 0 0 in
  (fst run, outcome_map (report (fun s => s)) (snd run)).

(** *** genetic_alg *)

(** One generation of a population driver ([genetic_alg], [mimic]). *)
Record generation : Type := {
  gn_population : list St;  (* the argument of problem.set_population *)
  gn_fitness : Q;           (* problem.get_fitness() at the comparison *)
  gn_next_state : St;       (* next_state *)
  gn_next_fitness : Q;      (* next_fitness *)
  gn_accepted : bool;       (* problem.set_state(next_state) was called *)
  gn_world : W              (* the world when the generation ends *)
}.

(** The [for _ in range(pop_size)] loop with [n] children still to make;
    indexing the population outside its bounds raises. *)
Fixpoint ga_children (pop_size : nat) (mutation_prob : Q) (n : nat) (w : W)
    (next_gen : list St) : outcome (list St * W) :=
  match n with
  | O => Returned (next_gen, w)
  | S n' =>
      let selected := fst (choice pop_size (get_mate_probs w) w) in
      let w1 := snd (choice pop_size (get_mate_probs w) w) in
      match nth_error (get_population w1) (fst selected),
            nth_error (get_population w1) (snd selected) with
      | Some parent_1, Some parent_2 =>
          let child := fst (reproduce parent_1 parent_2 mutation_prob w1) in
          let w2 := snd (reproduce parent_1 parent_2 mutation_prob w1) in
          ga_children pop_size mutation_prob n' w2 (next_gen ++ [child])
      | _, _ => Raised
      end
  end.

Fixpoint ga_loop (pop_size : nat) (mutation_prob : Q) (max_attempts : nat)
    (fuel : nat) (w : W) (attempts : nat) : list generation * outcome W :=
  if attempts <? max_attempts then
    match fuel with
    | O => ([], NoFuel)
    | S fuel' =>
        let w1 := eval_mate_probs w in
        match ga_children pop_size mutation_prob pop_size w1 [] with
        | Returned (next_gen, w2) =>
            let w3 := set_population next_gen w2 in
            let next_state := best_child w3 in
            let next_fitness := eval_fitness w3 next_state in
            if Qgtb next_fitness (get_fitness w3) then
              let w4 := set_state next_state w3 in
              log {| gn_population := next_gen; gn_fitness := get_fitness w3;
                     gn_next_state := next_state;
                     gn_next_fitness := next_fitness; gn_accepted := true;
                     gn_world := w4 |}
                  (ga_loop pop_size mutation_prob max_attempts fuel' w4 0)
            else
              log {| gn_population := next_gen; gn_fitness := get_fitness w3;
                     gn_next_state := next_state;
                     gn_next_fitness := next_fitness; gn_accepted := false;
                     gn_world := w3 |}
                  (ga_loop pop_size mutation_prob max_attempts fuel' w3
                           (attempts + 1))
        | _ => ([], Raised)
        end
    end
  else ([], Returned w).

Definition genetic_alg (fuel : nat) (w : W) (pop_size : nat)
    (mutation_prob : Q) (max_attempts : nat)
  : list generation * outcome result :=
  let run := ga_loop pop_size mutation_prob max_attempts fuel
                     (random_pop pop_size (reset w)) 0 in
  (fst run, outcome_map (report (fun s => s)) (snd run)).

(** *** mimic *)

Fixpoint mimic_loop (pop_size : nat) (keep_pct : Q) (max_attempts : nat)
    (fuel : nat) (w : W) (attempts : nat) : list generation * outcome W :=
  if attempts <? max_attempts then
    match fuel with
    | O => ([], NoFuel)
    | S fuel' =>
        let w1 := find_top_pct keep_pct w in
        let w2 := eval_node_probs w1 in
        let new_sample := fst (sample_pop pop_size w2) in
        let w3 := snd (sample_pop pop_size w2) in
        let w4 := set_population new_sample w3 in
        let next_state := best_child w4 in
        let next_fitness := eval_fitness w4 next_state in
        if Qgtb next_fitness (get_fitness w4) then
          let w5 := set_state next_state w4 in
          log {| gn_population := new_sample; gn_fitness := get_fitness w4;
                 gn_next_state := next_state;
                 gn_next_fitness := next_fitness; gn_accepted := true;
                 gn_world := w5 |}
              (mimic_loop pop_size keep_pct max_attempts fuel' w5 0)
        else
          log {| gn_population := new_sample; gn_fitness := get_fitness w4;
                 gn_next_state := next_state;
                 gn_next_fitness := next_fitness; gn_accepted := false;
                 gn_world := w4 |}
              (mimic_loop pop_size keep_pct max_attempts fuel' w4
                          (attempts + 1))
    end
  else ([], Returned w).

Definition mimic (fuel : nat) (w : W) (pop_size : nat) (keep_pct : Q)
    (max_attempts : nat) : list generation * outcome result :=
  let run := mimic_loop pop_size keep_pct max_attempts fuel
                        (random_pop pop_size (reset w)) 0 in
  (fst run, outcome_map (report astype_int) (snd run)).

End Drivers.

(** ** The five calls *)

(** A call of one of the drivers with its arguments after [problem]. *)
Inductive call : Type :=
| HillClimb (restarts : nat)
| RandomHillClimb (max_attempts restarts : nat)
| SimulatedAnnealing (schedule : nat -> Q) (max_attempts : nat)
| GeneticAlg (pop_size : nat) (mutation_prob : Q) (max_attempts : nat)
| Mimic (pop_size : nat) (keep_pct : Q) (max_attempts : nat).

Section Calls.

Context {W St : Type} {P : Problem W St} {NP : Numpy W St}.

(** The state and fitness of the problem as a single-run driver reads them
    after its loop; [orient] of it is [report]. *)
Definition current (cast : St -> St) (w : W) : tracker :=
  {| best_state := Some (cast (get_state w));
     best_fitness := Fin (get_fitness w) |}.

(** What the call hands back. *)
Definition run (fuel : nat) (w : W) (c : call) : outcome result :=
  match c with
  | HillClimb restarts => snd (hill_climb fuel w restarts)
  | RandomHillClimb max_attempts restarts =>
      snd (random_hill_climb fuel w max_attempts restarts)
  | SimulatedAnnealing schedule max_attempts =>
      snd (simulated_annealing fuel w schedule max_attempts)
  | GeneticAlg pop_size mutation_prob max_attempts =>
      snd (genetic_alg fuel w pop_size mutation_prob max_attempts)
  | Mimic pop_size keep_pct max_attempts =>
      snd (mimic fuel w pop_size keep_pct max_attempts)
  end.

(** The world and the best state and fitness the call holds just before its
    last assignment to [best_fitness]. *)
Definition run_internal (fuel : nat) (w : W) (c : call)
  : outcome (W * tracker) :=
  match c with
  | HillClimb restarts => snd (hill_climb_internal fuel w restarts)
  | RandomHillClimb max_attempts restarts =>
      snd (random_hill_climb_internal fuel w max_attempts restarts)
  | SimulatedAnnealing schedule max_attempts =>
      outcome_map (fun w' => (w', current (fun s => s) w'))
        (snd (sa_loop schedule max_attempts fuel (reset w) 0 0))
  | GeneticAlg pop_size mutation_prob max_attempts =>
      outcome_map (fun w' => (w', current (fun s => s) w'))
        (snd (ga_loop pop_size mutation_prob max_attempts fuel
                      (random_pop pop_size (reset w)) 0))
  | Mimic pop_size keep_pct max_attempts =>
      outcome_map (fun w' => (w', current astype_int w'))
        (snd (mimic_loop pop_size keep_pct max_attempts fuel
                         (random_pop pop_size (reset w)) 0))
  end.

(** The accept/reject decisions of the attempt loops of the call, one list
    per loop: one per restart for [random_hill_climb], one for the others;
    [hill_climb] has no attempt loop. *)
Definition decisions (fuel : nat) (w : W) (c : call) : list (list bool) :=
  match c with
  | HillClimb restarts => []
  | RandomHillClimb max_attempts restarts =>
      map (fun r => map it_accepted (rs_trace r))
          (fst (random_hill_climb fuel w max_attempts restarts))
  | SimulatedAnnealing schedule max_attempts =>
      [map sa_accepted (fst (simulated_annealing fuel w schedule max_attempts))]
  | GeneticAlg pop_size mutation_prob max_attempts =>
      [map gn_accepted
           (fst (genetic_alg fuel w pop_size mutation_prob max_attempts))]
  | Mimic pop_size keep_pct max_attempts =>
      [map gn_accepted (fst (mimic fuel w pop_size keep_pct max_attempts))]
  end.

(** The accept/reject decisions of every loop of the call, [hill_climb]'s
    inner loops included. *)
Definition all_decisions (fuel : nat) (w : W) (c : call) : list (list bool) :=
  match c with
  | HillClimb restarts =>
      map (fun r => map it_accepted (rs_trace r))
          (fst (hill_climb fuel w restarts))
  | _ => decisions fuel w c
  end.

(** The state and fitness of the problem when a restart ends. *)
Definition final_of (r : @restart W St) : option (St * Q) :=
  match rs_end r with
  | Returned w => Some (get_state w, get_fitness w)
  | _ => None
  end.

(** The fitness of the problem after [reset] and after each [set_state] of
    a restart, in order. *)
Definition committed (start : W) (passes : list (@iteration W St)) : list Q :=
  get_fitness start
  :: map (fun it => get_fitness (it_world it)) (filter it_accepted passes).

Definition committed_fitness (r : @restart W St) : list Q :=
  committed (rs_start r) (rs_trace r).

(** A pass of [hill_climb] that moves: the candidate is the best neighbour,
    its fitness is greater than the current one, and it is committed. *)
Definition climbs (it : @iteration W St) : Prop :=
  it_accepted it = true
  /\ it_next_state it = best_neighbor (it_at it)
  /\ it_next_fitness it = eval_fitness (it_at it) (it_next_state it)
  /\ it_fitness it = get_fitness (it_at it)
  /\ it_fitness it < it_next_fitness it
  /\ it_world it = set_state (it_next_state it) (it_at it).

(** A pass of [hill_climb] that breaks out of the loop: nothing is committed
    and no neighbour in the set [neighbors] has a fitness greater than the
    current one. *)
Definition stops (neighbors : W -> list St) (it : @iteration W St) : Prop :=
  it_accepted it = false
  /\ it_world it = it_at it
  /\ it_fitness it = get_fitness (it_at it)
  /\ forall n, In n (neighbors (it_at it)) ->
               eval_fitness (it_at it) n <= get_fitness (it_at it).

(** The passes [passes] of a loop of [hill_climb] that ended as [ending]:
    a returned loop climbed in every pass but its last, which stopped at the
    world it returns; a loop still running has climbed in every pass. *)
Definition climb_to_local_optimum (neighbors : W -> list St)
    (passes : list (@iteration W St)) (ending : outcome W) : Prop :=
  match ending with
  | Returned w' =>
      exists moves stop,
        passes = moves ++ [stop]
        /\ Forall climbs moves
        /\ stops neighbors stop
        /\ it_world stop = w'
  | NoFuel => Forall climbs passes
  | Raised => False
  end.

End Calls.

(** max_attempts of the call; [hill_climb] has none and gives up at the
    first rejection. *)
Definition max_attempts_of (c : call) : nat :=
  match c with
  | HillClimb _ => 0
  | RandomHillClimb max_attempts _ => max_attempts
  | SimulatedAnnealing _ max_attempts => max_attempts
  | GeneticAlg _ _ max_attempts => max_attempts
  | Mimic _ _ max_attempts => max_attempts
  end.

(** The number of runs the call makes: [restarts], or 1 for the drivers
    without restarts. *)
Definition restarts_of (c : call) : nat :=
  match c with
  | HillClimb restarts => restarts
  | RandomHillClimb _ restarts => restarts
  | _ => 1
  end.

(** The attempts counter as a state machine: the decisions an attempt loop
    with ceiling [k] can take from the counter value [attempts].  A pass is
    made only below the ceiling; an accepted candidate resets the counter
    and a rejected one increments it. *)
Inductive attempt_trace (k : nat) : nat -> list bool -> Prop :=
| attempts_stop (attempts : nat) :
    (attempts <= k)%nat -> attempt_trace k attempts []
| attempts_reset (attempts : nat) (flags : list bool) :
    (attempts < k)%nat -> attempt_trace k 0 flags ->
    attempt_trace k attempts (true :: flags)
| attempts_incr (attempts : nat) (flags : list bool) :
    (attempts < k)%nat -> attempt_trace k (attempts + 1) flags ->
    attempt_trace k attempts (false :: flags).

(** What the body of the annealing loop makes true of every pass: the
    temperature is that of the schedule and is not zero, and the draw and the
    decision follow the test of the code. *)
Definition sa_pass_ok {W : Type} (schedule : nat -> Q)
    (it : @sa_iteration W) : Prop :=
  ~ sa_temp it == 0
  /\ sa_temp it = schedule (sa_time it)
  /\ sa_delta it = sa_next_fitness it - sa_fitness it
  /\ sa_exponent it = sa_delta it / sa_temp it
  /\ (sa_draw it = None <-> 0 < sa_delta it)
  /\ (sa_accepted it = true <->
      0 < sa_delta it
      \/ exists u, sa_draw it = Some u
                   /\ (Q2R u < boltzmann (sa_exponent it))%R).

(** [flags] has no more than [k] rejections in a row. *)
Definition rejections_bounded (k : nat) (flags : list bool) : Prop :=
  forall before run after,
    flags = before ++ run ++ after ->
    Forall (fun accepted => accepted = false) run ->
    (length run <= k)%nat.

(** The number of accepted candidates among [flags]. *)
Definition accepted_count (flags : list bool) : nat :=
  length (filter (fun accepted => accepted) flags).

(** ** Two problems to run the drivers on *)

(** Count the ones of a bit string ("one max"), with bit-flip neighbours, a
    population of bit strings and a counter for the random generator.  The
    internal fitness is the objective multiplied by the orientation. *)
Module OneMax.

Definition bits : Type := list bool.

Record world : Type := {
  state : bits;
  fitness : Q;
  neighbors : list bits;
  population : list bits;
  mate_probs : list Q;
  keep : list bits;
  weight : Q;
  maximize : Q;
  seed : nat
}.

Definition ones (s : bits) : Z := Z.of_nat (count_occ bool_dec s true).

(** The objective is [weight] times the number of ones. *)
Definition evaluate (w : world) (s : bits) : Q :=
  maximize w * (weight w * inject_Z (ones s)).

Fixpoint flip (i : nat) (s : bits) : bits :=
  match s, i with
  | [], _ => []
  | b :: s', O => negb b :: s'
  | b :: s', S i' => b :: flip i' s'
  end.

Definition all_flips (s : bits) : list bits :=
  map (fun i => flip i s) (seq 0 (length s)).

(** The first element of the greatest value, as [np.argmax] picks it. *)
Fixpoint argmax (f : bits -> Q) (best : bits) (l : list bits) : bits :=
  match l with
  | [] => best
  | x :: l' => argmax f (if Qgtb (f x) (f best) then x else best) l'
  end.

Definition best_of (f : bits -> Q) (l : list bits) (default : bits) : bits :=
  match l with
  | [] => default
  | x :: l' => argmax f x l'
  end.

(** [n] bits read off the binary digits of [k]. *)
Fixpoint digits (n k : nat) : bits :=
  match n with
  | O => []
  | S n' => Nat.odd k :: digits n' (Nat.div2 k)
  end.

Definition with_state (s : bits) (w : world) : world :=
  {| state := s; fitness := evaluate w s; neighbors := neighbors w;
     population := population w; mate_probs := mate_probs w; keep := keep w;
     weight := weight w; maximize := maximize w; seed := seed w |}.

Definition with_seed (k : nat) (w : world) : world :=
  {| state := state w; fitness := fitness w; neighbors := neighbors w;
     population := population w; mate_probs := mate_probs w; keep := keep w;
     weight := weight w; maximize := maximize w; seed := k |}.

Definition with_neighbors (l : list bits) (w : world) : world :=
  {| state := state w; fitness := fitness w; neighbors := l;
     population := population w; mate_probs := mate_probs w; keep := keep w;
     weight := weight w; maximize := maximize w; seed := seed w |}.

Definition with_population (l : list bits) (w : world) : world :=
  {| state := state w; fitness := fitness w; neighbors := neighbors w;
     population := l; mate_probs := mate_probs w; keep := keep w;
     weight := weight w; maximize := maximize w; seed := seed w |}.

Definition with_mate_probs (l : list Q) (w : world) : world :=
  {| state := state w; fitness := fitness w; neighbors := neighbors w;
     population := population w; mate_probs := l; keep := keep w;
     weight := weight w; maximize := maximize w; seed := seed w |}.

Definition with_keep (l : list bits) (w : world) : world :=
  {| state := state w; fitness := fitness w; neighbors := neighbors w;
     population := population w; mate_probs := mate_probs w; keep := l;
     weight := weight w; maximize := maximize w; seed := seed w |}.

Definition fresh_pop (w : world) (n : nat) : list bits :=
  map (fun i => digits (length (state w)) (seed w + i)) (seq 0 n).

Definition crossover (p1 p2 : bits) (cut : nat) : bits :=
  firstn cut p1 ++ skipn cut p2.

#[global] Instance problem : Problem world bits := {|
  reset w :=
    with_seed (seed w + 1)
      (with_state (digits (length (state w)) (seed w)) w);
  find_neighbors w := with_neighbors (all_flips (state w)) w;
  best_neighbor w := best_of (evaluate w) (neighbors w) (state w);
  random_neighbor w :=
    (flip (seed w mod length (state w)) (state w), with_seed (seed w + 1) w);
  eval_fitness := evaluate;
  get_fitness := fitness;
  get_state := state;
  set_state := with_state;
  get_maximize := maximize;
  random_pop n w := with_seed (seed w + n) (with_population (fresh_pop w n) w);
  eval_mate_probs w :=
    with_mate_probs
      (map (fun _ => 1 # Pos.of_nat (length (population w))) (population w)) w;
  get_mate_probs := mate_probs;
  reproduce p1 p2 mutation_prob w :=
    (crossover p1 p2 (seed w mod (length p1 + 1)), with_seed (seed w + 1) w);
  get_population := population;
  set_population := with_population;
  best_child w := best_of (evaluate w) (population w) (state w);
  find_top_pct pct w :=
    with_keep
      (filter (fun s => Qle_bool (fitness w) (evaluate w s)) (population w)) w;
  eval_node_probs w := w;
  sample_pop n w :=
    (map (fun i => flip ((seed w + i) mod length (state w))
                        (nth (i mod length (keep w)) (keep w) (state w)))
         (seq 0 n),
     with_seed (seed w + n) w)
|}.

#[global] Instance numpy : Numpy world bits := {|
  uniform w := (Z.of_nat (seed w mod 10) # 10, with_seed (seed w + 1) w);
  choice n probs w :=
    ((seed w mod n, (seed w + 3) mod n), with_seed (seed w + 1) w);
  astype_int s := s
|}.

(** A world of [n] zero bits before any call, for the objective [c] times
    the number of ones. *)
Definition start_weighted (n : nat) (c m : Q) (k : nat) : world :=
  {| state := repeat false n; fitness := 0; neighbors := [];
     population := []; mate_probs := []; keep := []; weight := c;
     maximize := m; seed := k |}.

Definition start (n : nat) (m : Q) (k : nat) : world :=
  start_weighted n 1 m k.

End OneMax.

(** A problem in which every neighbour is better: the state is a number,
    its fitness is the number itself and its neighbour is the next number. *)
Module Escalator.

#[global] Instance problem : Problem nat nat := {|
  reset w := 0%nat;
  find_neighbors w := w;
  best_neighbor w := S w;
  random_neighbor w := (S w, w);
  eval_fitness w s := inject_Z (Z.of_nat s);
  get_fitness w := inject_Z (Z.of_nat w);
  get_state w := w;
  set_state s w := s;
  get_maximize w := 1;
  random_pop n w := w;
  eval_mate_probs w := w;
  get_mate_probs w := [];
  reproduce p1 p2 mutation_prob w := (S w, w);
  get_population w := [w; S w];
  set_population pop w := w;
  best_child w := S w;
  find_top_pct pct w := w;
  eval_node_probs w := w;
  sample_pop n w := (repeat w n, w)
|}.

#[global] Instance numpy : Numpy nat nat := {|
  uniform w := (0, w);
  choice n probs w := ((0%nat, 0%nat), w);
  astype_int s := s
|}.

End Escalator.

(** Two temperature schedules: one that stays at 1, and one that cools
    from 3 by 1 a step and stays at 0. *)
Definition steady (t : nat) : Q := 1.

Definition cooling (t : nat) : Q := inject_Z (Z.of_nat (3 - t)).

(** ** The restart drivers for a fitness that is any float *)

(** [hill_climb] and [random_hill_climb] once more, for a problem whose
    fitness is a float that may be infinite or NaN.  A loop hands back the
    decision of each pass; a restart records them and, when its loop
    returned, the state and fitness the problem then has. *)
Module Extended.

Class Problem (W St : Type) : Type := {
  reset : W -> W;
  find_neighbors : W -> W;
  best_neighbor : W -> St;
  random_neighbor : W -> St * W;
  eval_fitness : W -> St -> pyfloat;
  get_fitness : W -> pyfloat;
  get_state : W -> St;
  set_state : St -> W -> W;
  get_maximize : W -> pyfloat
}.

Section Drivers.

Context {W St : Type} {P : Problem W St}.

Record restart : Type := {
  rs_flags : list bool;               (* set_state was called, per pass *)
  rs_final : option (St * pyfloat)    (* get_state(), get_fitness() *)
}.

(** if problem.get_fitness() > best_fitness: ... *)
Definition update_best (w : W) (b : @tracker St) : @tracker St :=
  if gtb (get_fitness w) (best_fitness b)
  then {| best_state := Some (get_state w);
          best_fitness := get_fitness w |}
  else b.

(** The [while True] loop of one restart of [hill_climb]. *)
Fixpoint hc_loop (fuel : nat) (w : W) : list bool * outcome W :=
  match fuel with
  | O => ([], NoFuel)
  | S fuel' =>
      let w1 := find_neighbors w in
      let next_state := best_neighbor w1 in
      let next_fitness := eval_fitness w1 next_state in
      if gtb next_fitness (get_fitness w1) then
        log true (hc_loop fuel' (set_state next_state w1))
      else ([false], Returned w1)
  end.

(** The [while attempts < max_attempts] loop of one restart of
    [random_hill_climb]. *)
Fixpoint rhc_loop (max_attempts : nat) (fuel : nat) (w : W) (attempts : nat)
  : list bool * outcome W :=
  if attempts <? max_attempts then
    match fuel with
    | O => ([], NoFuel)
    | S fuel' =>
        let next_state := fst (random_neighbor w) in
        let w1 := snd (random_neighbor w) in
        let next_fitness := eval_fitness w1 next_state in
        if gtb next_fitness (get_fitness w1) then
          log true (rhc_loop max_attempts fuel' (set_state next_state w1) 0)
        else
          log false (rhc_loop max_attempts fuel' w1 (attempts + 1))
    end
  else ([], Returned w).

(** The [for _ in range(restarts)] loop. *)
Fixpoint restarts_loop (loop : W -> list bool * outcome W) (restarts : nat)
    (w : W) (b : @tracker St)
  : list restart * outcome (W * @tracker St) :=
  match restarts with
  | O => ([], Returned (w, b))
  | S n =>
      let run := loop (reset w) in
      match snd run with
      | Returned w1 =>
          log {| rs_flags := fst run;
                 rs_final := Some (get_state w1, get_fitness w1) |}
              (restarts_loop loop n w1 (update_best w1 b))
      | Raised => ([{| rs_flags := fst run; rs_final := None |}], Raised)
      | NoFuel => ([{| rs_flags := fst run; rs_final := None |}], NoFuel)
      end
  end.

(** best_fitness = problem.get_maximize()*best_fitness *)
Definition orient (wb : W * @tracker St) : W * (option St * pyfloat) :=
  (fst wb,
   (best_state (snd wb),
    mul (get_maximize (fst wb)) (best_fitness (snd wb)))).

Definition hill_climb_internal (fuel : nat) (w : W) (restarts : nat)
  : list restart * outcome (W * @tracker St) :=
  restarts_loop (hc_loop fuel) restarts w tracker_init.

Definition hill_climb (fuel : nat) (w : W) (restarts : nat)
  : list restart * outcome (W * (option St * pyfloat)) :=
  let run := hill_climb_internal fuel w restarts in
  (fst run, outcome_map orient (snd run)).

Definition random_hill_climb_internal (fuel : nat) (w : W)
    (max_attempts restarts : nat)
  : list restart * outcome (W * @tracker St) :=
  restarts_loop (fun w0 => rhc_loop max_attempts fuel w0 0) restarts w
                tracker_init.

Definition random_hill_climb (fuel : nat) (w : W)
    (max_attempts restarts : nat)
  : list restart * outcome (W * (option St * pyfloat)) :=
  let run := random_hill_climb_internal fuel w max_attempts restarts in
  (fst run, outcome_map orient (snd run)).

(** A call of one of the two restart drivers with its arguments after
    [problem]. *)
Inductive call : Type :=
| HillClimb (restarts : nat)
| RandomHillClimb (max_attempts restarts : nat).

(** The restarts of the call and what it hands back. *)
Definition run (fuel : nat) (w : W) (c : call)
  : list restart * outcome (W * (option St * pyfloat)) :=
  match c with
  | HillClimb restarts => hill_climb fuel w restarts
  | RandomHillClimb max_attempts restarts =>
      random_hill_climb fuel w max_attempts restarts
  end.

(** The world and the tracker just before the last assignment to
    [best_fitness]. *)
Definition run_internal (fuel : nat) (w : W) (c : call)
  : list restart * outcome (W * @tracker St) :=
  match c with
  | HillClimb restarts => hill_climb_internal fuel w restarts
  | RandomHillClimb max_attempts restarts =>
      random_hill_climb_internal fuel w max_attempts restarts
  end.

(** max_attempts of the call; [hill_climb] has none and gives up at the
    first rejection. *)
Definition max_attempts_of (c : call) : nat :=
  match c with
  | HillClimb _ => 0
  | RandomHillClimb max_attempts _ => max_attempts
  end.

Definition restarts_of (c : call) : nat :=
  match c with
  | HillClimb restarts => restarts
  | RandomHillClimb _ restarts => restarts
  end.

(** The restart ended with a fitness above the [-1*np.inf] that
    [best_fitness] starts with: a number or [+inf], not [-inf] and not
    NaN. *)
Definition beats_initial (r : restart) : bool :=
  match rs_final r with
  | Some (_, f) => gtb f NegInf
  | None => false
  end.

(** The tracker [b] holds the final state and fitness of the restart [r],
    which ended above [-inf]. *)
Definition holds_final (b : @tracker St) (r : restart) : Prop :=
  exists (s : St) (f : pyfloat),
    rs_final r = Some (s, f)
    /\ gtb f NegInf = true
    /\ best_state b = Some s
    /\ best_fitness b = f.

(** The restart [r] ended, and the test [get_fitness() > best_fitness] fails
    of its final fitness and the fitness in the tracker [b]: it did not end
    with a greater fitness. *)
Definition not_greater (b : @tracker St) (r : restart) : Prop :=
  exists (s : St) (f : pyfloat),
    rs_final r = Some (s, f) /\ gtb f (best_fitness b) = false.

(** The restart [r] ended with a fitness lower than the one in the tracker
    [b], or with NaN. *)
Definition lower (b : @tracker St) (r : restart) : Prop :=
  exists (s : St) (f : pyfloat),
    rs_final r = Some (s, f) /\ (gtb (best_fitness b) f = true \/ f = NaN).

(** The tracker [b] holds the final state and fitness of one of the
    restarts [records], and no restart ended with a greater fitness. *)
Definition best_among (records : list restart) (b : @tracker St) : Prop :=
  (exists r, In r records /\ holds_final b r)
  /\ Forall (not_greater b) records.

(** The tracker [b] holds the final state and fitness of the first of the
    restarts [records] that ended with the greatest fitness: the restarts
    before it ended lower (or with NaN), those after it no higher. *)
Definition first_best (records : list restart) (b : @tracker St) : Prop :=
  exists (before : list restart) (r : restart) (after : list restart),
    records = before ++ r :: after
    /\ holds_final b r
    /\ Forall (lower b) before
    /\ Forall (not_greater b) after.

End Drivers.

End Extended.

(** A problem with a finite fitness as one with a float fitness. *)
Definition lift {W St : Type} (P : Problem W St) : Extended.Problem W St :=
  {| Extended.reset := reset;
     Extended.find_neighbors := find_neighbors;
     Extended.best_neighbor := best_neighbor;
     Extended.random_neighbor := random_neighbor;
     Extended.eval_fitness w s := Fin (eval_fitness w s);
     Extended.get_fitness w := Fin (get_fitness w);
     Extended.get_state := get_state;
     Extended.set_state := set_state;
     Extended.get_maximize w := Fin (get_maximize w) |}.

(** A minimisation problem in which every state is infeasible and costs
    [+inf]: the internal fitness, the cost times the orientation -1, is
    [-inf] in every state.  The state is a number and its neighbour the next
    number. *)
Module Abyss.

#[global] Instance problem : Extended.Problem nat nat := {|
  Extended.reset w := 0%nat;
  Extended.find_neighbors w := w;
  Extended.best_neighbor w := S w;
  Extended.random_neighbor w := (S w, w);
  Extended.eval_fitness w s := NegInf;
  Extended.get_fitness w := NegInf;
  Extended.get_state w := w;
  Extended.set_state s w := s;
  Extended.get_maximize w := Fin (-1 # 1)
|}.

End Abyss.

(** ** Further observations of a run *)

(** The decisions of an attempt loop with ceiling [k] that has stopped by
    its counter, from the counter value [attempts]: the rejections that were
    still missing, or any decisions, an accepted candidate and then [k]
    rejections. *)
Definition stopped_after (k attempts : nat) (flags : list bool) : Prop :=
  flags = repeat false (k - attempts)
  \/ exists before, flags = before ++ true :: repeat false k.

Section Observations.

Context {W St : Type} {P : Problem W St} {NP : Numpy W St}.

(** The fitness of the problem from pass to pass: [f] is the fitness when a
    pass starts, and a step gives the decision of the pass and the fitness
    when it ends, which is the fitness when the next pass starts.  A pass
    that committed its candidate raised the fitness, one that rejected it
    left the fitness as it was. *)
Fixpoint fitness_kept (f : Q) (steps : list (bool * Q)) : Prop :=
  match steps with
  | [] => True
  | (accepted, f') :: rest =>
      (if (accepted : bool) then f < f' else f' == f)
      /\ fitness_kept f' rest
  end.

(** The decision of each pass of a neighbour loop and the fitness of the
    problem when the pass ends. *)
Definition pass_steps (passes : list (@iteration W St)) : list (bool * Q) :=
  map (fun it => (it_accepted it, get_fitness (it_world it))) passes.

(** The same of the generations of a population driver. *)
Definition generation_steps (generations : list (@generation W St))
  : list (bool * Q) :=
  map (fun g => (gn_accepted g, get_fitness (gn_world g))) generations.

End Observations.

(** * Properties *)

(** ** Arithmetic of the float model *)

Lemma Qgtb_true (a b : Q) : Qgtb a b = true <-> b < a.
Proof.
  unfold Qgtb. rewrite negb_true_iff, <- not_true_iff_false, Qle_bool_iff.
  split; [apply Qnot_le_lt | apply Qlt_not_le].
Qed.

Lemma Qgtb_false (a b : Q) : Qgtb a b = false <-> a <= b.
Proof.
  unfold Qgtb. rewrite negb_false_iff. apply Qle_bool_iff.
Qed.

Lemma Qnum_pos (q : Q) : 0 < q -> exists p, Qnum q = Zpos p.
Proof.
  destruct q as [[|p|p] d]; unfold Qlt; simpl; intros H; try lia.
  now exists p.
Qed.

Lemma Qnum_neg (q : Q) : q < 0 -> exists p, Qnum q = Zneg p.
Proof.
  destruct q as [[|p|p] d]; unfold Qlt; simpl; intros H; try lia.
  now exists p.
Qed.

Lemma mul_one (m : Q) (x : pyfloat) :
  m == 1 -> tracked x -> eqv (mul (Fin m) x) x.
Proof.
  intros Hm Hx. destruct x as [|q| |]; try contradiction; simpl.
  - destruct (Qnum_pos m) as [p Hp]; [rewrite Hm; reflexivity|].
    unfold times_inf. now rewrite Hp.
  - rewrite Hm. apply Qmult_1_l.
Qed.

Lemma mul_minus_one (m : Q) (x : pyfloat) :
  m == -1 # 1 -> tracked x -> eqv (mul (Fin m) x) (neg x).
Proof.
  intros Hm Hx. destruct x as [|q| |]; try contradiction; simpl.
  - destruct (Qnum_neg m) as [p Hp]; [rewrite Hm; reflexivity|].
    unfold times_inf. now rewrite Hp.
  - rewrite Hm. ring.
Qed.

(** ** The orientation is read once, after the loops *)

Section Orientation.

Context {W St : Type} (P : Problem W St) {NP : Numpy W St}.
Variable m : W -> Q.

Lemma hc_loop_maximize (fuel : nat) (w : W) :
  @hc_loop W St (with_maximize m P) fuel w = @hc_loop W St P fuel w.
Proof.
  revert w. induction fuel as [|fuel IH]; intros w; [reflexivity|].
  simpl. rewrite IH. reflexivity.
Qed.

Lemma rhc_loop_maximize (k fuel : nat) (w : W) (attempts : nat) :
  @rhc_loop W St (with_maximize m P) k fuel w attempts
  = @rhc_loop W St P k fuel w attempts.
Proof.
  revert w attempts. induction fuel as [|fuel IH]; intros w attempts;
    [reflexivity|].
  simpl. rewrite !IH. reflexivity.
Qed.

Lemma sa_loop_maximize (schedule : nat -> Q) (k fuel : nat) (w : W)
    (t attempts : nat) :
  @sa_loop W St (with_maximize m P) NP schedule k fuel w t attempts
  = @sa_loop W St P NP schedule k fuel w t attempts.
Proof.
  revert w t attempts. induction fuel as [|fuel IH]; intros w t attempts;
    [reflexivity|].
  simpl. rewrite !IH. reflexivity.
Qed.

Lemma ga_children_maximize (pop_size : nat) (mp : Q) (n : nat) (w : W)
    (next_gen : list St) :
  @ga_children W St (with_maximize m P) NP pop_size mp n w next_gen
  = @ga_children W St P NP pop_size mp n w next_gen.
Proof.
  revert w next_gen. induction n as [|n IH]; intros w next_gen;
    [reflexivity|].
  simpl.
  destruct (nth_error _ _) as [p1|]; [|reflexivity].
  destruct (nth_error _ _) as [p2|]; [|reflexivity].
  apply IH.
Qed.

Lemma ga_loop_maximize (pop_size : nat) (mp : Q) (k fuel : nat) (w : W)
    (attempts : nat) :
  @ga_loop W St (with_maximize m P) NP pop_size mp k fuel w attempts
  = @ga_loop W St P NP pop_size mp k fuel w attempts.
Proof.
  revert w attempts. induction fuel as [|fuel IH]; intros w attempts;
    [reflexivity|].
  simpl. rewrite ga_children_maximize.
  destruct (attempts <? k); [|reflexivity].
  destruct (ga_children _ _ _ _ _) as [[next_gen w2]| |]; reflexivity.
Qed.

Lemma mimic_loop_maximize (pop_size : nat) (keep_pct : Q) (k fuel : nat)
    (w : W) (attempts : nat) :
  @mimic_loop W St (with_maximize m P) pop_size keep_pct k fuel w attempts
  = @mimic_loop W St P pop_size keep_pct k fuel w attempts.
Proof.
  revert w attempts. induction fuel as [|fuel IH]; intros w attempts;
    [reflexivity|].
  simpl. rewrite !IH. reflexivity.
Qed.

Lemma restarts_loop_maximize (loop loop' : W -> list iteration * outcome W)
    (n : nat) (w : W) (b : tracker) :
  (forall w0, loop w0 = loop' w0) ->
  @restarts_loop W St (with_maximize m P) loop n w b
  = @restarts_loop W St P loop' n w b.
Proof.
  intros Hloop. revert w b. induction n as [|n IH]; intros w b;
    [reflexivity|].
  simpl. rewrite Hloop.
  destruct (snd (loop' _)) as [w1| |]; try reflexivity.
  rewrite IH. reflexivity.
Qed.

Lemma run_internal_maximize (fuel : nat) (w : W) (c : call) :
  @run_internal W St (with_maximize m P) NP fuel w c
  = @run_internal W St P NP fuel w c.
Proof.
  destruct c; simpl.
  - unfold hill_climb_internal.
    erewrite restarts_loop_maximize; [reflexivity|].
    intros w0. apply hc_loop_maximize.
  - unfold random_hill_climb_internal.
    erewrite restarts_loop_maximize; [reflexivity|].
    intros w0. apply rhc_loop_maximize.
  - rewrite sa_loop_maximize. reflexivity.
  - rewrite ga_loop_maximize. reflexivity.
  - rewrite mimic_loop_maximize. reflexivity.
Qed.

End Orientation.

Section OrientationClaim.

Context {W St : Type} {P : Problem W St} {NP : Numpy W St}.

Lemma run_orient (fuel : nat) (w : W) (c : call) :
  run fuel w c = outcome_map orient (run_internal fuel w c).
Proof.
  destruct c; simpl; try reflexivity;
    match goal with |- context [snd ?l] => destruct (snd l) end; reflexivity.
Qed.

Lemma update_best_tracked (w : W) (b : tracker) :
  tracked (best_fitness b) -> tracked (best_fitness (update_best w b)).
Proof.
  unfold update_best. destruct (gtb _ _); simpl; auto.
Qed.

Lemma restarts_loop_tracked (loop : W -> list iteration * outcome W)
    (n : nat) (w : W) (b : tracker) (w' : W) (b' : tracker) :
  tracked (best_fitness b) ->
  snd (restarts_loop loop n w b) = Returned (w', b') ->
  tracked (best_fitness b').
Proof.
  revert w b. induction n as [|n IH]; intros w b Hb; simpl.
  - intros [= <- <-]. exact Hb.
  - destruct (snd (loop (reset w))) as [w1| |]; simpl; try discriminate.
    apply IH, update_best_tracked, Hb.
Qed.

Lemma run_internal_tracked (fuel : nat) (w : W) (c : call) (w' : W)
    (b : tracker) :
  run_internal fuel w c = Returned (w', b) -> tracked (best_fitness b).
Proof.
  destruct c; simpl.
  1, 2: apply restarts_loop_tracked; exact I.
  all: match goal with |- context [snd ?l] => destruct (snd l) end;
    simpl; try discriminate; intros [= <- <-]; exact I.
Qed.

(** C10.  With [restarts = 0] neither restart driver touches the problem:
    no restart is performed, the world is the one passed in, the state
    returned is [None] and the fitness is [get_maximize()] times [-inf],
    that is [-inf] for orientation 1 and [+inf] for orientation -1. *)
Theorem zero_restarts (fuel : nat) (w : W) (max_attempts : nat) :
  hill_climb fuel w 0
  = ([], Returned (w, (None, mul (Fin (get_maximize w)) NegInf)))
  /\ random_hill_climb fuel w max_attempts 0
     = ([], Returned (w, (None, mul (Fin (get_maximize w)) NegInf)))
  /\ (get_maximize w == 1 -> mul (Fin (get_maximize w)) NegInf = NegInf)
  /\ (get_maximize w == -1 # 1 -> mul (Fin (get_maximize w)) NegInf = PosInf).
Proof.
  split; [reflexivity|]. split; [reflexivity|].
  split; intros Hm; simpl; unfold times_inf.
  - destruct (Qnum_pos (get_maximize w)) as [p ->]; [rewrite Hm|]; reflexivity.
  - destruct (Qnum_neg (get_maximize w)) as [p ->]; [rewrite Hm|]; reflexivity.
Qed.

End OrientationClaim.

Lemma zero_restarts_witness :
  hill_climb (P := OneMax.problem) 7 (OneMax.start 8 (-1 # 1) 3) 0
  = ([], Returned (OneMax.start 8 (-1 # 1) 3, (None, PosInf)))
  /\ random_hill_climb (P := OneMax.problem) 7 (OneMax.start 8 1 3) 10 0
     = ([], Returned (OneMax.start 8 1 3, (None, NegInf))).
Proof.
  split.
  - destruct (zero_restarts (P := OneMax.problem) 7
                (OneMax.start 8 (-1 # 1) 3) 10) as (H & _ & _ & Hneg).
    rewrite H, Hneg; reflexivity.
  - destruct (zero_restarts (P := OneMax.problem) 7
                (OneMax.start 8 1 3) 10) as (_ & H & Hpos & _).
    rewrite H, Hpos; reflexivity.
Defined.

(** ** Simulated annealing: temperature and acceptance *)


Lemma underflow_pos : (0 < underflow)%R.
Proof.
  unfold underflow. apply Rinv_0_lt_compat. apply IZR_lt. reflexivity.
Qed.










Section Annealing.

Context {W St : Type} {P : Problem W St} {NP : Numpy W St}.
Variable schedule : nat -> Q.
Variable max_attempts : nat.

Lemma Rltb_true (u : Q) (p : R) : Rltb u p = true <-> (Q2R u < p)%R.
Proof.
  unfold Rltb. destruct (Rlt_dec (Q2R u) p); split; auto; discriminate.
Qed.

Lemma sa_loop_passes (fuel : nat) (w : W) (t attempts : nat) :
  Forall (sa_pass_ok schedule)
         (fst (sa_loop schedule max_attempts fuel w t attempts)).
Proof.
  revert w t attempts.
  induction fuel as [|fuel IH]; intros w t attempts; simpl;
    destruct (attempts <? max_attempts);
    destruct (Qeq_bool (schedule t) 0) eqn:Et; simpl; try constructor.
  assert (Hnz : ~ schedule t == 0).
  { intros H. apply Qeq_bool_iff in H. congruence. }
  destruct (Qgtb _ _) eqn:Ed; [|destruct (Rltb _ _) eqn:Eu]; simpl;
    (constructor; [|apply IH]); unfold sa_pass_ok; simpl;
    repeat split; auto; try discriminate.
  - intros _. now apply Qgtb_true.
  - intros _. left. now apply Qgtb_true.
  - intros H. apply Qgtb_true in H. congruence.
  - intros _. right. eexists; split; [reflexivity|]. now apply Rltb_true.
  - intros H. apply Qgtb_true in H. congruence.
  - intros [H | (u & [= <-] & H)].
    + apply Qgtb_true in H. congruence.
    + apply Rltb_true in H. congruence.
Qed.

Lemma sa_loop_times (fuel : nat) (w : W) (t attempts : nat) :
  map sa_time (fst (sa_loop schedule max_attempts fuel w t attempts))
  = seq t (length (fst (sa_loop schedule max_attempts fuel w t attempts))).
Proof.
  revert w t attempts.
  induction fuel as [|fuel IH]; intros w t attempts; simpl;
    destruct (attempts <? max_attempts);
    destruct (Qeq_bool (schedule t) 0); simpl; try reflexivity.
  destruct (Qgtb _ _); [|destruct (Rltb _ _)]; simpl;
    rewrite IH, Nat.add_1_r; reflexivity.
Qed.

(** At a time of temperature zero the loop is over: nothing is drawn and
    the world stays as it is. *)
Lemma sa_loop_zero (fuel : nat) (w : W) (t attempts : nat) :
  schedule t == 0 ->
  sa_loop schedule max_attempts fuel w t attempts = ([], Returned w).
Proof.
  intros H. apply Qeq_bool_iff in H.
  destruct fuel; simpl; rewrite H; destruct (attempts <? max_attempts);
    reflexivity.
Qed.

Lemma sa_loop_exhausts (t0 fuel : nat) (w : W) (t attempts : nat) :
  schedule t0 == 0 -> (t <= t0)%nat ->
  (length (fst (sa_loop schedule max_attempts fuel w t attempts)) <= t0 - t)%nat
  /\ ((t0 - t <= fuel)%nat ->
      exists w', snd (sa_loop schedule max_attempts fuel w t attempts)
                 = Returned w').
Proof.
  intros H0. revert w t attempts.
  induction fuel as [|fuel IH]; intros w t attempts Ht.
  - simpl. destruct (attempts <? max_attempts);
      [destruct (Qeq_bool (schedule t) 0) eqn:Et|]; simpl;
      (split; [lia|intros Hf; eauto]).
    assert (t = t0) by lia. subst t.
    apply Qeq_bool_iff in H0. congruence.
  - simpl. destruct (attempts <? max_attempts);
      [destruct (Qeq_bool (schedule t) 0) eqn:Et|]; simpl;
      try (split; [lia|intros Hf; eauto]).
    assert (Hlt : (t < t0)%nat).
    { destruct (Nat.eq_dec t t0) as [->|]; [|lia].
      apply Qeq_bool_iff in H0. congruence. }
    destruct (Qgtb _ _); [|destruct (Rltb _ _)]; simpl;
      match goal with
      | |- context [sa_loop _ _ fuel ?w' (t + 1) ?a] =>
          destruct (IH w' (t + 1)%nat a) as [Hlen Hret]; [lia|]
      end;
      (split; [lia | intros Hf; apply Hret; lia]).
Qed.

(** C2.  No pass of the annealing loop is made at temperature zero, so the
    quotient [delta_e/temp] never has a zero divisor; at a time whose
    temperature is zero the loop returns at once with the world untouched
    (no neighbour drawn, nothing computed), and a schedule that is zero at
    [t0] ends the run within [t0] passes. *)
Theorem zero_temperature_stops (fuel : nat) (w : W) :
  let passes := fst (simulated_annealing fuel w schedule max_attempts) in
  Forall (fun it => ~ sa_temp it == 0
                    /\ sa_temp it = schedule (sa_time it)
                    /\ sa_exponent it = sa_delta it / sa_temp it) passes
  /\ forall t0 : nat,
       schedule t0 == 0 ->
       (forall fuel' w' attempts,
           sa_loop schedule max_attempts fuel' w' t0 attempts
           = ([], Returned w'))
       /\ Forall (fun it => (sa_time it < t0)%nat) passes
       /\ (length passes <= t0)%nat
       /\ ((t0 <= fuel)%nat ->
           exists r, snd (simulated_annealing fuel w schedule max_attempts)
                     = Returned r).
Proof.
  unfold simulated_annealing; simpl. split.
  - eapply Forall_impl; [|apply sa_loop_passes].
    unfold sa_pass_ok. intros it H. tauto.
  - intros t0 H0.
    split; [intros; now apply sa_loop_zero|].
    destruct (sa_loop_exhausts t0 fuel (reset w) 0 0 H0) as [Hlen Hret];
      [lia|].
    rewrite Nat.sub_0_r in Hlen, Hret.
    split; [|split; [exact Hlen|]].
    + apply Forall_forall. intros it Hin.
      assert (Hin' : In (sa_time it)
                (map sa_time (fst (sa_loop schedule max_attempts fuel
                                           (reset w) 0 0))))
        by now apply in_map.
      rewrite sa_loop_times in Hin'. apply in_seq in Hin'. lia.
    + intros Hf. destruct (Hret Hf) as [w' ->]. simpl. eauto.
Qed.




End Annealing.

Lemma zero_temperature_stops_witness :
  (length (fst (simulated_annealing (P := OneMax.problem) 9
                  (OneMax.start 4 1 5) cooling 3)) <= 3)%nat
  /\ exists r, snd (simulated_annealing (P := OneMax.problem) 9
                      (OneMax.start 4 1 5) cooling 3) = Returned r.
Proof.
  destruct (zero_temperature_stops cooling 3 9 (OneMax.start 4 1 5))
    as [_ H].
  destruct (H 3%nat) as (_ & _ & Hlen & Hret); [reflexivity|].
  split; [exact Hlen | apply Hret; lia].
Defined.



(** ** The attempts counter *)

Lemma attempt_trace_prefix (k attempts : nat) (flags : list bool) :
  attempt_trace k attempts flags ->
  forall run after,
    flags = run ++ after ->
    Forall (fun accepted => accepted = false) run ->
    (length run + attempts <= k)%nat.
Proof.
  induction 1 as [a Ha | a flags Ha _ _ | a flags Ha _ IH];
    intros run after Heq Hrun.
  - destruct run; [simpl; lia | discriminate].
  - destruct run as [|x run]; [simpl; lia|].
    injection Heq as <- _. inversion Hrun; discriminate.
  - destruct run as [|x run]; [simpl; lia|].
    injection Heq as _ Heq. inversion Hrun; subst.
    specialize (IH run after eq_refl). simpl. intuition lia.
Qed.

(** A counter that starts lower can take the same decisions. *)
Lemma attempt_trace_lower (k lo hi : nat) (flags : list bool) :
  (lo <= hi)%nat -> attempt_trace k hi flags -> attempt_trace k lo flags.
Proof.
  intros Hle H. revert lo Hle.
  induction H as [a Ha | a flags Ha Hflags _ | a flags Ha _ IH];
    intros lo Hle.
  - constructor; lia.
  - constructor; [lia | assumption].
  - constructor; [lia | apply IH; lia].
Qed.

Lemma attempt_trace_bounded (k attempts : nat) (flags : list bool) :
  attempt_trace k attempts flags -> rejections_bounded k flags.
Proof.
  induction 1 as [a Ha | a flags Ha Hflags IH | a flags Ha Hflags IH];
    intros before run after Heq Hrun.
  - destruct before; [|discriminate].
    destruct run; [simpl; lia | discriminate].
  - destruct before as [|x before].
    + pose proof (attempt_trace_prefix k a (true :: flags)
                    (attempts_reset k a flags Ha Hflags) run after Heq Hrun).
      lia.
    + injection Heq as _ Heq. exact (IH before run after Heq Hrun).
  - destruct before as [|x before].
    + pose proof (attempt_trace_prefix k a (false :: flags)
                    (attempts_incr k a flags Ha Hflags) run after Heq Hrun).
      lia.
    + injection Heq as _ Heq. exact (IH before run after Heq Hrun).
Qed.

(** A loop with ceiling [k] that accepts [n] candidates makes no more than
    [n * (k + 1) + k] passes. *)
Lemma attempt_trace_length (k attempts : nat) (flags : list bool) :
  attempt_trace k attempts flags ->
  (length flags + attempts <= accepted_count flags * (k + 1) + k)%nat.
Proof.
  unfold accepted_count.
  induction 1 as [a Ha | a flags Ha _ IH | a flags Ha _ IH]; simpl; lia.
Qed.

Section AttemptLoops.

Context {W St : Type} {P : Problem W St} {NP : Numpy W St}.

(** Case analysis on the tests of a loop body, in the order of the code. *)
Ltac loop_tests :=
  repeat match goal with
         | |- context [Nat.ltb ?a ?k] => destruct (Nat.ltb_spec a k)
         | |- context [Qeq_bool ?x ?y] => destruct (Qeq_bool x y)
         | |- context [Qgtb ?x ?y] => destruct (Qgtb x y)
         | |- context [Rltb ?x ?y] => destruct (Rltb x y)
         | |- context [ga_children ?a ?b ?c ?d ?e] =>
             destruct (ga_children a b c d e) as [[? ?]| |]
         end;
  simpl.

Lemma rhc_loop_attempts (k fuel : nat) (w : W) (attempts : nat) :
  (attempts <= k)%nat ->
  attempt_trace k attempts (map it_accepted (fst (rhc_loop k fuel w attempts))).
Proof.
  revert w attempts.
  induction fuel as [|fuel IH]; intros w a Ha; simpl; loop_tests;
    constructor; try lia; apply IH; lia.
Qed.

Lemma sa_loop_attempts (schedule : nat -> Q) (k fuel : nat) (w : W)
    (t attempts : nat) :
  (attempts <= k)%nat ->
  attempt_trace k attempts
    (map sa_accepted (fst (sa_loop schedule k fuel w t attempts))).
Proof.
  revert w t attempts.
  induction fuel as [|fuel IH]; intros w t a Ha; simpl; loop_tests;
    constructor; try lia; apply IH; lia.
Qed.

Lemma ga_loop_attempts (pop_size : nat) (mp : Q) (k fuel : nat) (w : W)
    (attempts : nat) :
  (attempts <= k)%nat ->
  attempt_trace k attempts
    (map gn_accepted (fst (ga_loop pop_size mp k fuel w attempts))).
Proof.
  revert w attempts.
  induction fuel as [|fuel IH]; intros w a Ha; simpl; loop_tests;
    constructor; try lia; apply IH; lia.
Qed.

Lemma mimic_loop_attempts (pop_size : nat) (keep_pct : Q) (k fuel : nat)
    (w : W) (attempts : nat) :
  (attempts <= k)%nat ->
  attempt_trace k attempts
    (map gn_accepted (fst (mimic_loop pop_size keep_pct k fuel w attempts))).
Proof.
  revert w attempts.
  induction fuel as [|fuel IH]; intros w a Ha; simpl; loop_tests;
    constructor; try lia; apply IH; lia.
Qed.

(** A loop that runs out of fuel has made [fuel] passes. *)
Lemma hc_loop_nofuel (fuel : nat) (w : W) :
  snd (hc_loop fuel w) = NoFuel ->
  accepted_count (map it_accepted (fst (hc_loop fuel w))) = fuel.
Proof.
  unfold accepted_count. revert w.
  induction fuel as [|fuel IH]; intros w; simpl; [reflexivity|].
  loop_tests; [|discriminate].
  intros Hnf. now rewrite IH.
Qed.

Lemma rhc_loop_nofuel (k fuel : nat) (w : W) (attempts : nat) :
  snd (rhc_loop k fuel w attempts) = NoFuel ->
  length (fst (rhc_loop k fuel w attempts)) = fuel.
Proof.
  revert w attempts.
  induction fuel as [|fuel IH]; intros w a; simpl; loop_tests;
    try discriminate; try reflexivity; intros Hnf; now rewrite IH.
Qed.

Lemma sa_loop_nofuel (schedule : nat -> Q) (k fuel : nat) (w : W)
    (t attempts : nat) :
  snd (sa_loop schedule k fuel w t attempts) = NoFuel ->
  length (fst (sa_loop schedule k fuel w t attempts)) = fuel.
Proof.
  revert w t attempts.
  induction fuel as [|fuel IH]; intros w t a; simpl; loop_tests;
    try discriminate; try reflexivity; intros Hnf; now rewrite IH.
Qed.

Lemma ga_loop_nofuel (pop_size : nat) (mp : Q) (k fuel : nat) (w : W)
    (attempts : nat) :
  snd (ga_loop pop_size mp k fuel w attempts) = NoFuel ->
  length (fst (ga_loop pop_size mp k fuel w attempts)) = fuel.
Proof.
  revert w attempts.
  induction fuel as [|fuel IH]; intros w a; simpl; loop_tests;
    try discriminate; try reflexivity; intros Hnf; now rewrite IH.
Qed.

Lemma mimic_loop_nofuel (pop_size : nat) (keep_pct : Q) (k fuel : nat)
    (w : W) (attempts : nat) :
  snd (mimic_loop pop_size keep_pct k fuel w attempts) = NoFuel ->
  length (fst (mimic_loop pop_size keep_pct k fuel w attempts)) = fuel.
Proof.
  revert w attempts.
  induction fuel as [|fuel IH]; intros w a; simpl; loop_tests;
    try discriminate; try reflexivity; intros Hnf; now rewrite IH.
Qed.

(** An attempt loop that accepted no more than [n] candidates and had more
    fuel than [n * (k + 1) + k] did not run out of it. *)
Lemma attempt_loop_finished {I : Type} (accepted : I -> bool) (k n fuel : nat)
    (run : list I * outcome W) :
  attempt_trace k 0 (map accepted (fst run)) ->
  (snd run = NoFuel -> length (fst run) = fuel) ->
  (accepted_count (map accepted (fst run)) <= n)%nat ->
  (n * (k + 1) + k < fuel)%nat ->
  finished (snd run) = true.
Proof.
  intros Htrace Hfuel Hn Hlt.
  destruct (snd run) eqn:E; try reflexivity.
  apply attempt_trace_length in Htrace.
  rewrite length_map, (Hfuel eq_refl) in Htrace. nia.
Qed.

(** The restart loop finishes when each of its runs does. *)
Lemma restarts_loop_finished (loop : W -> list iteration * outcome W)
    (ok : list iteration -> Prop) (n : nat) (w : W) (b : tracker) :
  (forall w0, ok (fst (loop w0)) -> finished (snd (loop w0)) = true) ->
  Forall (fun r => ok (rs_trace r)) (fst (restarts_loop loop n w b)) ->
  finished (snd (restarts_loop loop n w b)) = true.
Proof.
  intros Hloop. revert w b.
  induction n as [|n IH]; intros w b; simpl; [reflexivity|].
  specialize (Hloop (reset w)).
  destruct (snd (loop (reset w))) as [w1| |]; simpl; intros H;
    inversion H; subst; auto.
Qed.

Lemma restarts_loop_length (loop : W -> list iteration * outcome W)
    (n : nat) (w : W) (b : tracker) :
  (length (fst (restarts_loop loop n w b)) <= n)%nat
  /\ (forall r, snd (restarts_loop loop n w b) = Returned r ->
      length (fst (restarts_loop loop n w b)) = n).
Proof.
  revert w b. induction n as [|n IH]; intros w b; simpl.
  - split; [lia | reflexivity].
  - destruct (snd (loop (reset w))) as [w1| |]; simpl;
      try (split; [lia | discriminate]).
    destruct (IH w1 (update_best w1 b)) as [Hle Heq].
    split; [lia|]. intros r Hr. now rewrite (Heq r Hr).
Qed.

Lemma finished_map {A B : Type} (f : A -> B) (o : outcome A) :
  finished (outcome_map f o) = finished o.
Proof. destruct o; reflexivity. Qed.

(** C4, as the code has it.  A call in which no loop accepts more than [n]
    candidates ends within [n * (max_attempts + 1) + max_attempts] passes of
    each loop ([n] passes and the final one for the loop of [hill_climb]):
    with more fuel than that it returns (or raises).  The restart loop makes
    no more than [restarts] runs.  What keeps a loop running is only an
    unbounded supply of accepted candidates. *)
Theorem bounded_acceptance_terminates (c : call) (fuel : nat) (w : W)
    (n : nat) :
  Forall (fun flags => (accepted_count flags <= n)%nat)
         (all_decisions fuel w c) ->
  (n * (max_attempts_of c + 1) + max_attempts_of c < fuel)%nat ->
  finished (run fuel w c) = true
  /\ (length (all_decisions fuel w c) <= restarts_of c)%nat.
Proof.
  destruct c as [restarts | k restarts | schedule k | pop_size mp k
                | pop_size keep_pct k]; simpl; intros Hn Hlt.
  - split; [|rewrite length_map; apply restarts_loop_length].
    rewrite finished_map. unfold hill_climb_internal.
    apply restarts_loop_finished
      with (ok := fun tr => (accepted_count (map it_accepted tr) <= n)%nat).
    + intros w0 Hw0. destruct (snd (hc_loop fuel w0)) eqn:E; try reflexivity.
      apply hc_loop_nofuel in E. lia.
    + apply Forall_map in Hn. exact Hn.
  - split; [|rewrite length_map; apply restarts_loop_length].
    rewrite finished_map. unfold random_hill_climb_internal.
    apply restarts_loop_finished
      with (ok := fun tr => (accepted_count (map it_accepted tr) <= n)%nat).
    + intros w0 Hw0.
      apply (attempt_loop_finished it_accepted k n fuel); auto.
      * apply rhc_loop_attempts; lia.
      * apply rhc_loop_nofuel.
    + apply Forall_map in Hn. exact Hn.
  - split; [|lia]. rewrite finished_map. inversion Hn; subst.
    apply (attempt_loop_finished sa_accepted k n fuel); auto.
    + apply sa_loop_attempts; lia.
    + apply sa_loop_nofuel.
  - split; [|lia]. rewrite finished_map. inversion Hn; subst.
    apply (attempt_loop_finished gn_accepted k n fuel); auto.
    + apply ga_loop_attempts; lia.
    + apply ga_loop_nofuel.
  - split; [|lia]. rewrite finished_map. inversion Hn; subst.
    apply (attempt_loop_finished gn_accepted k n fuel); auto.
    + apply mimic_loop_attempts; lia.
    + apply mimic_loop_nofuel.
Qed.

End AttemptLoops.

Lemma bounded_acceptance_terminates_witness :
  finished (run (P := OneMax.problem) 50 (OneMax.start 4 1 7)
                (RandomHillClimb 2 3)) = true
  /\ (length (all_decisions (P := OneMax.problem) 50 (OneMax.start 4 1 7)
                (RandomHillClimb 2 3)) <= 3)%nat.
Proof.
  apply (bounded_acceptance_terminates (RandomHillClimb 2 3) 50
           (OneMax.start 4 1 7) 3).
  - vm_compute. repeat constructor.
  - vm_compute. repeat constructor.
Defined.

(** ** A problem that keeps the loops running *)

Section EscalatorRuns.

Import Escalator.

Lemma escalator_better (w : nat) :
  Qgtb (inject_Z (Z.of_nat (S w))) (inject_Z (Z.of_nat w)) = true.
Proof.
  apply Qgtb_true. unfold Qlt; simpl. lia.
Qed.

Lemma escalator_delta (w : nat) :
  Qgtb (inject_Z (Z.of_nat (S w)) - inject_Z (Z.of_nat w)) 0 = true.
Proof.
  apply Qgtb_true. unfold Qminus. apply -> Qlt_minus_iff.
  unfold Qlt; simpl. lia.
Qed.

Lemma escalator_hc (fuel w : nat) : snd (hc_loop fuel w) = NoFuel.
Proof.
  revert w. induction fuel as [|fuel IH]; intros w; [reflexivity|].
  cbn [hc_loop]. cbn [find_neighbors best_neighbor eval_fitness get_fitness
                     set_state problem].
  rewrite escalator_better. apply IH.
Qed.

Lemma escalator_rhc (k fuel w : nat) : snd (rhc_loop (S k) fuel w 0) = NoFuel.
Proof.
  revert w. induction fuel as [|fuel IH]; intros w; [reflexivity|].
  cbn [rhc_loop Nat.ltb Nat.leb].
  cbn [random_neighbor eval_fitness get_fitness set_state problem fst snd].
  rewrite escalator_better. apply IH.
Qed.

Lemma escalator_sa (k fuel w t : nat) :
  snd (sa_loop steady (S k) fuel w t 0) = NoFuel.
Proof.
  revert w t. induction fuel as [|fuel IH]; intros w t; [reflexivity|].
  cbn [sa_loop Nat.ltb Nat.leb].
  change (Qeq_bool (steady t) 0) with false. cbv iota.
  cbn [random_neighbor eval_fitness get_fitness set_state problem fst snd].
  rewrite escalator_delta. apply IH.
Qed.

Lemma escalator_ga (mp : Q) (k fuel w : nat) :
  snd (ga_loop 2 mp (S k) fuel w 0) = NoFuel.
Proof.
  revert w. induction fuel as [|fuel IH]; intros w; [reflexivity|].
  cbn [ga_loop Nat.ltb Nat.leb].
  cbn [ga_children eval_mate_probs get_mate_probs choice get_population
       nth_error reproduce set_population best_child eval_fitness
       get_fitness set_state problem numpy fst snd].
  rewrite escalator_better. apply IH.
Qed.

Lemma escalator_mimic (keep_pct : Q) (k fuel w : nat) :
  snd (mimic_loop 2 keep_pct (S k) fuel w 0) = NoFuel.
Proof.
  revert w. induction fuel as [|fuel IH]; intros w; [reflexivity|].
  cbn [mimic_loop Nat.ltb Nat.leb].
  cbn [find_top_pct eval_node_probs sample_pop set_population best_child
       eval_fitness get_fitness set_state problem fst snd].
  rewrite escalator_better. apply IH.
Qed.

End EscalatorRuns.

(** On a problem whose neighbour is always better no driver ever returns,
    whatever the fuel: the loops are not bounded by their counters alone. *)
Lemma escalator_never_stops :
  ~ exists (fuel : nat) (c : call),
      In c [HillClimb 1; RandomHillClimb 10 1; SimulatedAnnealing steady 10;
            GeneticAlg 2 (1 # 10) 10; Mimic 2 (1 # 5) 10]
      /\ finished (run (P := Escalator.problem) (NP := Escalator.numpy)
                       fuel 0%nat c) = true.
Proof.
  intros (fuel & c & Hc & Hfin).
  assert (E : run (P := Escalator.problem) (NP := Escalator.numpy)
                  fuel 0%nat c = NoFuel).
  { simpl in Hc.
    destruct Hc as [<- | [<- | [<- | [<- | [<- | []]]]]]; simpl.
    - unfold hill_climb_internal. simpl. now rewrite escalator_hc.
    - unfold random_hill_climb_internal. simpl. now rewrite escalator_rhc.
    - now rewrite escalator_sa.
    - now rewrite escalator_ga.
    - now rewrite escalator_mimic. }
  rewrite E in Hfin. discriminate.
Qed.

(** ** Rejections in a row, and the best fitness kept *)

Section AttemptsBound.

Context {W St : Type} {P : Problem W St} {NP : Numpy W St}.

Lemma update_best_ge (w : W) (b : tracker) :
  tracked (best_fitness b) ->
  ge (best_fitness (update_best w b)) (Fin (get_fitness w)).
Proof.
  unfold update_best. destruct (best_fitness b) as [|y| |] eqn:E;
    try contradiction; intros _; simpl.
  - apply Qle_refl.
  - destruct (Qgtb (get_fitness w) y) eqn:Eg; simpl.
    + apply Qle_refl.
    + rewrite E. simpl. now apply Qgtb_false.
Qed.

Lemma restarts_loop_ge (loop : W -> list iteration * outcome W) (n : nat)
    (w : W) (b : tracker) (w' : W) (b' : tracker) :
  tracked (best_fitness b) -> (0 < n)%nat ->
  snd (restarts_loop loop n w b) = Returned (w', b') ->
  ge (best_fitness b') (Fin (get_fitness w')).
Proof.
  revert w b. induction n as [|n IH]; intros w b Hb Hn; [lia|].
  simpl. destruct (snd (loop (reset w))) as [w1| |]; simpl;
    try discriminate.
  destruct n as [|n].
  - simpl. intros [= <- <-]. now apply update_best_ge.
  - apply IH; [now apply update_best_tracked | lia].
Qed.

(** What holds of every run of the loop of one restart (the world it
    starts from, its passes and its end) holds of every restart. *)
Lemma restarts_loop_traces (loop : W -> list iteration * outcome W)
    (ok : W -> list iteration -> outcome W -> Prop) (n : nat) (w : W)
    (b : tracker) :
  (forall w0, ok w0 (fst (loop w0)) (snd (loop w0))) ->
  Forall (fun r => ok (rs_start r) (rs_trace r) (rs_end r))
         (fst (restarts_loop loop n w b)).
Proof.
  intros Hloop. revert w b.
  induction n as [|n IH]; intros w b; simpl; [constructor|].
  specialize (Hloop (reset w)).
  destruct (snd (loop (reset w))) as [w1| |]; simpl;
    repeat constructor; simpl; auto.
Qed.

(** C3, as the code has it.  The attempts counter of each attempt loop
    starts at 0, is reset by every accepted candidate and incremented by
    every rejected one, and a pass is made only while it is below
    [max_attempts]: no loop rejects more than [max_attempts] candidates in a
    row.  The best fitness the call holds before the orientation is applied
    is at least the problem's fitness at the final committed state. *)
Theorem attempts_bound (c : call) (fuel : nat) (w : W) :
  Forall (fun flags =>
            attempt_trace (max_attempts_of c) 0 flags
            /\ rejections_bounded (max_attempts_of c) flags)
         (decisions fuel w c)
  /\ forall (w' : W) (b : tracker),
       run_internal fuel w c = Returned (w', b) ->
       (0 < restarts_of c)%nat ->
       ge (best_fitness b) (Fin (get_fitness w')).
Proof.
  assert (Hboth : forall k flags,
             attempt_trace k 0 flags ->
             attempt_trace k 0 flags /\ rejections_bounded k flags).
  { intros k flags H. split; [exact H|]. eapply attempt_trace_bounded, H. }
  destruct c as [restarts | k restarts | schedule k | pop_size mp k
                | pop_size keep_pct k]; simpl; split.
  - constructor.
  - intros w' b Hrun Hn.
    apply restarts_loop_ge in Hrun; [exact Hrun | exact I | exact Hn].
  - apply Forall_map. unfold random_hill_climb_internal.
    apply restarts_loop_traces
      with (ok := fun _ tr _ =>
                    attempt_trace k 0 (map it_accepted tr)
                    /\ rejections_bounded k (map it_accepted tr)).
    intros w0. apply Hboth, rhc_loop_attempts. lia.
  - intros w' b Hrun Hn.
    apply restarts_loop_ge in Hrun; [exact Hrun | exact I | exact Hn].
  - constructor; [|constructor]. apply Hboth, sa_loop_attempts; lia.
  - intros w' b Hrun _.
    destruct (snd (sa_loop _ _ _ _ _ _)); simpl in Hrun; try discriminate.
    injection Hrun as <- <-. simpl. apply Qle_refl.
  - constructor; [|constructor]. apply Hboth, ga_loop_attempts; lia.
  - intros w' b Hrun _.
    destruct (snd (ga_loop _ _ _ _ _ _)); simpl in Hrun; try discriminate.
    injection Hrun as <- <-. simpl. apply Qle_refl.
  - constructor; [|constructor]. apply Hboth, mimic_loop_attempts; lia.
  - intros w' b Hrun _.
    destruct (snd (mimic_loop _ _ _ _ _ _)); simpl in Hrun; try discriminate.
    injection Hrun as <- <-. simpl. apply Qle_refl.
Qed.

End AttemptsBound.

Lemma attempts_bound_witness :
  Forall (rejections_bounded 2)
         (decisions (P := OneMax.problem) 50 (OneMax.start 4 1 7)
                    (RandomHillClimb 2 3))
  /\ exists (w' : OneMax.world) (b : @tracker OneMax.bits),
       run_internal (P := OneMax.problem) 50 (OneMax.start 4 1 7)
                    (RandomHillClimb 2 3) = Returned (w', b)
       /\ ge (best_fitness b) (Fin (get_fitness w')).
Proof.
  destruct (attempts_bound (P := OneMax.problem) (RandomHillClimb 2 3) 50
              (OneMax.start 4 1 7)) as [Hflags Hbest].
  split.
  - eapply Forall_impl; [|exact Hflags]. intros flags H. apply H.
  - destruct (run_internal (P := OneMax.problem) 50 (OneMax.start 4 1 7)
                (RandomHillClimb 2 3)) as [[w' b]| |] eqn:E;
      try (vm_compute in E; discriminate).
    exists w', b. split; [reflexivity|].
    apply Hbest; [reflexivity | simpl; lia].
Defined.

(** A minimisation (orientation -1, objective minus the number of ones)
    with two restarts, the second ending lower than the first: the fitness
    returned, -3, is below the problem's fitness at the final committed
    state, 2, and also below that fitness in the caller's orientation, -2. *)
Lemma returned_fitness_below_final :
  exists (w' : OneMax.world) (s : option OneMax.bits) (f : pyfloat),
    run (P := OneMax.problem) 50
        (OneMax.start_weighted 4 (-1 # 1) (-1 # 1) 1) (RandomHillClimb 1 2)
    = Returned (w', (s, f))
    /\ f = Fin (-3 # 1)
    /\ get_fitness w' = 2
    /\ ~ ge f (Fin (get_fitness w'))
    /\ ~ ge f (mul (Fin (get_maximize w')) (Fin (get_fitness w'))).
Proof.
  do 3 eexists. split; [vm_compute; reflexivity|].
  split; [reflexivity|]. split; [reflexivity|].
  split; vm_compute; intros H; apply H; reflexivity.
Qed.

(** ** The best over the restarts *)



Section BestOverRestarts.

Context {W St : Type} {P : Problem W St} {NP : Numpy W St}.




End BestOverRestarts.

(** ** The best over the restarts, for a fitness that is any float *)

Lemma gtb_above (a b : pyfloat) : gtb a b = true -> gtb a NegInf = true.
Proof. destruct a, b; simpl; try discriminate; reflexivity. Qed.

Lemma gtb_irreflexive (a : pyfloat) : gtb a a = false.
Proof.
  destruct a; simpl; try reflexivity. apply Qgtb_false, Qle_refl.
Qed.

Lemma gtb_asymmetric (a b : pyfloat) : gtb a b = true -> gtb b a = false.
Proof.
  destruct a, b; simpl; try discriminate; try reflexivity.
  intros H. apply Qgtb_true in H. apply Qgtb_false. now apply Qlt_le_weak.
Qed.

Lemma gtb_transitive (a b c : pyfloat) :
  gtb a b = true -> gtb b c = true -> gtb a c = true.
Proof.
  destruct a, b, c; simpl; try discriminate; try reflexivity.
  intros H1 H2. apply Qgtb_true in H1, H2. apply Qgtb_true.
  eapply Qlt_trans; eassumption.
Qed.

(** A fitness that did not replace [b] is lower than one that did, or is
    NaN. *)
Lemma gtb_rejected_lower (f f1 b : pyfloat) :
  gtb f1 b = false -> gtb f b = true -> gtb f f1 = true \/ f1 = NaN.
Proof.
  destruct f, f1, b; simpl; try discriminate; auto.
  intros H1 H2. left. apply Qgtb_false in H1. apply Qgtb_true in H2.
  apply Qgtb_true. eapply Qle_lt_trans; eassumption.
Qed.

Section ExtendedRestarts.

Context {W St : Type} {P : Extended.Problem W St}.

Lemma ext_lower_not_greater (b : @tracker St) (r : Extended.restart) :
  Extended.lower b r -> Extended.not_greater b r.
Proof.
  intros (s & f & Hr & [Hgt | ->]); exists s; eexists; (split; [exact Hr|]).
  - now apply gtb_asymmetric.
  - reflexivity.
Qed.

Lemma ext_holds_not_greater (b : @tracker St) (r : Extended.restart) :
  Extended.holds_final b r -> Extended.not_greater b r.
Proof.
  intros (s & f & Hr & _ & _ & Hf). exists s, f. split; [exact Hr|].
  rewrite Hf. apply gtb_irreflexive.
Qed.

Lemma ext_holds_beats (b : @tracker St) (r : Extended.restart) :
  Extended.holds_final b r -> Extended.beats_initial r = true.
Proof.
  intros (s & f & Hr & Hf & _). unfold Extended.beats_initial.
  now rewrite Hr.
Qed.

Lemma ext_first_best_among (records : list Extended.restart)
    (b : @tracker St) :
  Extended.first_best records b -> Extended.best_among records b.
Proof.
  intros (before & r & after & -> & Hr & Hbefore & Hafter). split.
  - exists r. split; [|exact Hr]. apply in_or_app. right. now left.
  - apply Forall_app. split.
    + eapply Forall_impl; [|exact Hbefore]. apply ext_lower_not_greater.
    + constructor; [now apply ext_holds_not_greater | exact Hafter].
Qed.

Lemma ext_first_best_beats (records : list Extended.restart)
    (b : @tracker St) :
  Extended.first_best records b ->
  existsb Extended.beats_initial records = true.
Proof.
  intros (before & r & after & -> & Hr & _). apply existsb_exists.
  exists r. split; [|now apply (ext_holds_beats b)].
  apply in_or_app. right. now left.
Qed.

(** The restart loop from any tracker [b]: either no restart ended above
    [b] and [b] is returned, or the tracker returned is that of the first
    restart that ended with the greatest fitness, which is above [b]. *)
Lemma ext_restarts_loop_first (loop : W -> list bool * outcome W) (n : nat)
    (w : W) (b : @tracker St) (w' : W) (b' : @tracker St) :
  snd (Extended.restarts_loop loop n w b) = Returned (w', b') ->
  (b' = b
   /\ Forall (Extended.not_greater b)
             (fst (Extended.restarts_loop loop n w b)))
  \/ (Extended.first_best (fst (Extended.restarts_loop loop n w b)) b'
      /\ gtb (best_fitness b') (best_fitness b) = true).
Proof.
  revert w b. induction n as [|n IH]; intros w b; simpl.
  - intros [= <- <-]. left. split; [reflexivity | constructor].
  - destruct (snd (loop (Extended.reset w))) as [w1| |] eqn:E; simpl;
      try discriminate.
    intros Hrun.
    destruct (IH w1 (Extended.update_best w1 b) Hrun)
      as [[-> Hall] | [Hfirst Hgt]];
      unfold Extended.update_best in *;
      destruct (gtb (Extended.get_fitness w1) (best_fitness b)) eqn:Eg.
    + right. split; [|exact Eg].
      eexists [], _, _. split; [reflexivity|]. split; [|split].
      * eexists _, _. split; [reflexivity|]. split; [|split; reflexivity].
        exact (gtb_above _ _ Eg).
      * constructor.
      * exact Hall.
    + left. split; [reflexivity|]. constructor; [|exact Hall].
      eexists _, _. split; [reflexivity | exact Eg].
    + right. split; [|eapply gtb_transitive; eassumption].
      destruct Hfirst as (before & r & after & Hrec & Hr & Hbefore & Hafter).
      eexists (_ :: before), r, after.
      split; [simpl; now rewrite Hrec|]. split; [exact Hr|].
      split; [|exact Hafter]. constructor; [|exact Hbefore].
      eexists _, _. split; [reflexivity|]. left. exact Hgt.
    + right. split; [|exact Hgt].
      destruct Hfirst as (before & r & after & Hrec & Hr & Hbefore & Hafter).
      eexists (_ :: before), r, after.
      split; [simpl; now rewrite Hrec|]. split; [exact Hr|].
      split; [|exact Hafter]. constructor; [|exact Hbefore].
      eexists _, _. split; [reflexivity|].
      exact (gtb_rejected_lower _ _ _ Eg Hgt).
Qed.

Lemma ext_restarts_loop_length (loop : W -> list bool * outcome W) (n : nat)
    (w : W) (b : @tracker St) (r : W * @tracker St) :
  snd (Extended.restarts_loop loop n w b) = Returned r ->
  length (fst (Extended.restarts_loop loop n w b)) = n.
Proof.
  revert w b. induction n as [|n IH]; intros w b; simpl; [reflexivity|].
  destruct (snd (loop (Extended.reset w))) as [w1| |]; simpl;
    try discriminate.
  intros Hr. now rewrite (IH _ _ Hr).
Qed.

(** The restart loop of a driver, which starts from [tracker_init]: when a
    restart ended above [-inf] the tracker is that of the first restart that
    ended with the greatest fitness, otherwise it is the initial one. *)
Lemma ext_restarts_loop_tracker (loop : W -> list bool * outcome W) (n : nat)
    (w w' : W) (b : @tracker St) :
  snd (Extended.restarts_loop loop n w tracker_init) = Returned (w', b) ->
  (existsb Extended.beats_initial
           (fst (Extended.restarts_loop loop n w tracker_init)) = true ->
   Extended.first_best
     (fst (Extended.restarts_loop loop n w tracker_init)) b)
  /\ (existsb Extended.beats_initial
              (fst (Extended.restarts_loop loop n w tracker_init)) = false ->
      b = tracker_init).
Proof.
  intros Hrun.
  destruct (ext_restarts_loop_first loop n w tracker_init w' b Hrun)
    as [[-> Hall] | [Hfirst _]].
  - split; [|reflexivity]. intros Hex. exfalso.
    apply existsb_exists in Hex. destruct Hex as (r & Hin & Hr).
    rewrite Forall_forall in Hall.
    destruct (Hall r Hin) as (s & f & Hf & Hgt).
    unfold Extended.beats_initial in Hr. rewrite Hf in Hr.
    change (best_fitness (@tracker_init St)) with NegInf in Hgt. congruence.
  - split; [intros _; exact Hfirst|]. intros Hex.
    rewrite (ext_first_best_beats _ _ Hfirst) in Hex. discriminate.
Qed.

(** The loops of the restart drivers as attempt loops. *)
Lemma ext_hc_loop_nofuel (fuel : nat) (w : W) :
  snd (Extended.hc_loop fuel w) = NoFuel ->
  accepted_count (fst (Extended.hc_loop fuel w)) = fuel.
Proof.
  unfold accepted_count. revert w.
  induction fuel as [|fuel IH]; intros w; simpl; [reflexivity|].
  destruct (gtb _ _); simpl; [|discriminate].
  intros Hnf. now rewrite IH.
Qed.

Lemma ext_hc_loop_no_raise (fuel : nat) (w : W) :
  snd (Extended.hc_loop fuel w) <> Raised.
Proof.
  revert w. induction fuel as [|fuel IH]; intros w; simpl; [discriminate|].
  destruct (gtb _ _); simpl; [apply IH | discriminate].
Qed.

Lemma ext_rhc_loop_attempts (k fuel : nat) (w : W) (attempts : nat) :
  (attempts <= k)%nat ->
  attempt_trace k attempts (fst (Extended.rhc_loop k fuel w attempts)).
Proof.
  revert w attempts.
  induction fuel as [|fuel IH]; intros w a Ha; simpl;
    destruct (Nat.ltb_spec a k); simpl; try (constructor; lia).
  destruct (gtb _ _); simpl; constructor; try lia; apply IH; lia.
Qed.

Lemma ext_rhc_loop_nofuel (k fuel : nat) (w : W) (attempts : nat) :
  snd (Extended.rhc_loop k fuel w attempts) = NoFuel ->
  length (fst (Extended.rhc_loop k fuel w attempts)) = fuel.
Proof.
  revert w attempts.
  induction fuel as [|fuel IH]; intros w a; simpl;
    destruct (a <? k); simpl; try discriminate; try reflexivity.
  destruct (gtb _ _); simpl; intros Hnf; now rewrite IH.
Qed.

Lemma ext_rhc_loop_no_raise (k fuel : nat) (w : W) (attempts : nat) :
  snd (Extended.rhc_loop k fuel w attempts) <> Raised.
Proof.
  revert w attempts.
  induction fuel as [|fuel IH]; intros w a; simpl;
    destruct (a <? k); simpl; try discriminate.
  destruct (gtb _ _); simpl; apply IH.
Qed.

(** The restart loop returns when each of its runs does. *)
Lemma ext_restarts_loop_returns (loop : W -> list bool * outcome W)
    (ok : list bool -> Prop) (n : nat) (w : W) (b : @tracker St) :
  (forall w0, ok (fst (loop w0)) -> exists w1, snd (loop w0) = Returned w1) ->
  Forall (fun r => ok (Extended.rs_flags r))
         (fst (Extended.restarts_loop loop n w b)) ->
  exists w' b', snd (Extended.restarts_loop loop n w b) = Returned (w', b').
Proof.
  intros Hloop. revert w b.
  induction n as [|n IH]; intros w b; simpl; [eauto|].
  specialize (Hloop (Extended.reset w)).
  destruct (snd (loop (Extended.reset w))) as [w1| |]; simpl; intros H;
    inversion H; subst; simpl in *; auto;
    match goal with
    | Hok : ok _ |- _ => destruct (Hloop Hok) as [w1 Hw1]; discriminate
    end.
Qed.

(** A call in which no loop accepts more than [n] candidates returns when
    it has more fuel than [n * (max_attempts + 1) + max_attempts]. *)
Lemma ext_run_internal_returns (c : Extended.call) (fuel : nat) (w : W)
    (n : nat) :
  Forall (fun r => (accepted_count (Extended.rs_flags r) <= n)%nat)
         (fst (Extended.run_internal fuel w c)) ->
  (n * (Extended.max_attempts_of c + 1) + Extended.max_attempts_of c
   < fuel)%nat ->
  exists w' b, snd (Extended.run_internal fuel w c) = Returned (w', b).
Proof.
  destruct c as [restarts | k restarts]; simpl; intros Hn Hlt.
  - unfold Extended.hill_climb_internal in *.
    apply ext_restarts_loop_returns
      with (ok := fun flags => (accepted_count flags <= n)%nat);
      [|exact Hn].
    intros w0 Hw0.
    destruct (snd (Extended.hc_loop fuel w0)) as [w1| |] eqn:E; [eauto| |].
    + exfalso. exact (ext_hc_loop_no_raise fuel w0 E).
    + apply ext_hc_loop_nofuel in E. lia.
  - unfold Extended.random_hill_climb_internal in *.
    apply ext_restarts_loop_returns
      with (ok := fun flags => (accepted_count flags <= n)%nat);
      [|exact Hn].
    intros w0 Hw0.
    pose proof (attempt_loop_finished (fun a : bool => a) k n fuel
                  (Extended.rhc_loop k fuel w0 0)) as Hfin.
    rewrite map_id in Hfin.
    specialize (Hfin (ext_rhc_loop_attempts k fuel w0 0 (Nat.le_0_l k))
                     (ext_rhc_loop_nofuel k fuel w0 0) Hw0 Hlt).
    destruct (snd (Extended.rhc_loop k fuel w0 0)) as [w1| |] eqn:E;
      [eauto| |discriminate].
    exfalso. exact (ext_rhc_loop_no_raise k fuel w0 0 E).
Qed.

Lemma ext_run_orient (c : Extended.call) (fuel : nat) (w : W) :
  Extended.run fuel w c
  = (fst (Extended.run_internal fuel w c),
     outcome_map Extended.orient (snd (Extended.run_internal fuel w c))).
Proof. destruct c; reflexivity. Qed.

Lemma ext_run_internal_loop (c : Extended.call) (fuel : nat) (w : W) :
  exists loop,
    Extended.run_internal fuel w c
    = Extended.restarts_loop loop (Extended.restarts_of c) w tracker_init.
Proof. destruct c; eexists; reflexivity. Qed.

(** C7, as the code has it.  A call of [hill_climb] or [random_hill_climb]
    in which no loop accepts more than [n] candidates returns, given the
    fuel for it.  When it returns it has made [restarts] restarts and hands
    back the state of the tracker and its fitness times the orientation.
    If some restart ended with a fitness above [-inf] (a number or [+inf]),
    the tracker holds the final state and fitness of one of the restarts,
    and no restart ended with a greater fitness, compared as the problem
    gives them.  If every restart ended at [-inf] or NaN, the tracker still
    holds [None] and [-inf]: the state returned is that of no restart. *)
Theorem best_over_restarts (c : Extended.call) (fuel : nat) (w : W) :
  (forall n : nat,
      Forall (fun r => (accepted_count (Extended.rs_flags r) <= n)%nat)
             (fst (Extended.run fuel w c)) ->
      (n * (Extended.max_attempts_of c + 1) + Extended.max_attempts_of c
       < fuel)%nat ->
      exists w' b, snd (Extended.run_internal fuel w c) = Returned (w', b))
  /\ (forall (w' : W) (b : @tracker St),
        snd (Extended.run_internal fuel w c) = Returned (w', b) ->
        length (fst (Extended.run fuel w c)) = Extended.restarts_of c
        /\ snd (Extended.run fuel w c)
           = Returned (w', (best_state b,
                            mul (Extended.get_maximize w') (best_fitness b)))
        /\ (existsb Extended.beats_initial (fst (Extended.run fuel w c))
            = true ->
            Extended.best_among (fst (Extended.run fuel w c)) b)
        /\ (existsb Extended.beats_initial (fst (Extended.run fuel w c))
            = false ->
            best_state b = None /\ best_fitness b = NegInf)).
Proof.
  rewrite ext_run_orient. simpl fst. simpl snd. split.
  - intros n. apply ext_run_internal_returns.
  - intros w' b Hrun. rewrite Hrun.
    destruct (ext_run_internal_loop c fuel w) as [loop Hloop].
    rewrite Hloop in *.
    destruct (ext_restarts_loop_tracker loop _ w w' b Hrun)
      as [Habove Hnone].
    split; [eapply ext_restarts_loop_length; exact Hrun|].
    split; [reflexivity|]. split.
    + intros Hex. apply ext_first_best_among, Habove, Hex.
    + intros Hex. rewrite (Hnone Hex). split; reflexivity.
Qed.

End ExtendedRestarts.

(** The float drivers on a problem with a finite fitness take the decisions
    of the drivers above and end with the same world and tracker. *)
Section Lift.

Context {W St : Type} {P : Problem W St}.

Lemma lift_hc_loop (fuel : nat) (w : W) :
  Extended.hc_loop (P := lift P) fuel w
  = (map it_accepted (fst (hc_loop fuel w)), snd (hc_loop fuel w)).
Proof.
  revert w. induction fuel as [|fuel IH]; intros w; simpl; [reflexivity|].
  destruct (Qgtb _ _); simpl; [|reflexivity].
  unfold log. now rewrite IH.
Qed.

Lemma lift_rhc_loop (k fuel : nat) (w : W) (attempts : nat) :
  Extended.rhc_loop (P := lift P) k fuel w attempts
  = (map it_accepted (fst (rhc_loop k fuel w attempts)),
     snd (rhc_loop k fuel w attempts)).
Proof.
  revert w attempts.
  induction fuel as [|fuel IH]; intros w a; simpl;
    destruct (a <? k); simpl; try reflexivity.
  destruct (Qgtb _ _); simpl; unfold log; now rewrite IH.
Qed.

Lemma lift_restarts_loop (eloop : W -> list bool * outcome W)
    (loop : W -> list iteration * outcome W) (n : nat) (w : W)
    (b : @tracker St) :
  (forall w0, eloop w0 = (map it_accepted (fst (loop w0)), snd (loop w0))) ->
  snd (Extended.restarts_loop (P := lift P) eloop n w b)
  = snd (restarts_loop loop n w b)
  /\ map Extended.rs_flags
         (fst (Extended.restarts_loop (P := lift P) eloop n w b))
     = map (fun r => map it_accepted (rs_trace r))
           (fst (restarts_loop loop n w b))
  /\ map Extended.rs_final
         (fst (Extended.restarts_loop (P := lift P) eloop n w b))
     = map (fun r => option_map (fun sf => (fst sf, Fin (snd sf)))
                                (final_of r))
           (fst (restarts_loop loop n w b)).
Proof.
  intros Hloop. revert w b.
  induction n as [|n IH]; intros w b; simpl; [auto|].
  rewrite Hloop. simpl.
  destruct (snd (loop (reset w))) as [w1| |]; simpl; auto.
  destruct (IH w1 (update_best w1 b)) as (Hsnd & Hflags & Hfinal).
  change (Extended.update_best (P := lift P) w1 b) with (update_best w1 b).
  rewrite Hsnd, Hflags, Hfinal. auto.
Qed.

Lemma lift_run_internal (fuel : nat) (w : W) (max_attempts restarts : nat) :
  snd (Extended.run_internal (P := lift P) fuel w
         (Extended.HillClimb restarts))
  = snd (hill_climb_internal fuel w restarts)
  /\ snd (Extended.run_internal (P := lift P) fuel w
            (Extended.RandomHillClimb max_attempts restarts))
     = snd (random_hill_climb_internal fuel w max_attempts restarts).
Proof.
  split; simpl.
  - apply lift_restarts_loop. intros w0. apply lift_hc_loop.
  - apply lift_restarts_loop. intros w0. apply lift_rhc_loop.
Qed.

End Lift.

Lemma best_over_restarts_witness :
  Forall (fun c =>
            exists (w' : OneMax.world) (b : @tracker OneMax.bits),
              snd (Extended.run_internal (P := lift OneMax.problem) 50
                     (OneMax.start 4 1 7) c) = Returned (w', b)
              /\ Extended.best_among
                   (fst (Extended.run (P := lift OneMax.problem) 50
                           (OneMax.start 4 1 7) c)) b
              /\ snd (Extended.run (P := lift OneMax.problem) 50
                        (OneMax.start 4 1 7) c)
                 = Returned (w', (best_state b,
                                  mul (Fin 1) (best_fitness b))))
         [Extended.HillClimb 2; Extended.RandomHillClimb 1 2]
  /\ Forall (fun c =>
               exists (w' : nat) (b : @tracker nat),
                 snd (Extended.run_internal (P := Abyss.problem) 5 0%nat c)
                 = Returned (w', b)
                 /\ best_state b = None /\ best_fitness b = NegInf)
            [Extended.HillClimb 2; Extended.RandomHillClimb 1 2].
Proof.
  split.
  - constructor; [|constructor; [|constructor]];
      match goal with
      | |- exists w' b, snd (Extended.run_internal 50 ?w ?c) = _ /\ _ =>
          destruct (best_over_restarts (P := lift OneMax.problem) c 50 w)
            as [Htotal Hbest];
          destruct (Htotal 4%nat) as (w' & b & E);
            [vm_compute; repeat constructor | vm_compute; lia |];
          destruct (Hbest w' b E) as (_ & Hret & Habove & _);
          exists w', b; split; [exact E|]; split;
            [apply Habove; vm_compute; reflexivity|];
          rewrite Hret; vm_compute in E; injection E as <- _; reflexivity
      end.
  - constructor; [|constructor; [|constructor]];
      match goal with
      | |- exists w' b, snd (Extended.run_internal 5 ?w ?c) = _ /\ _ =>
          destruct (best_over_restarts (P := Abyss.problem) c 5 w)
            as [Htotal Hbest];
          destruct (Htotal 0%nat) as (w' & b & E);
            [vm_compute; repeat constructor | vm_compute; lia |];
          destruct (Hbest w' b E) as (_ & _ & _ & Hnone);
          exists w', b; split; [exact E|];
          apply Hnone; vm_compute; reflexivity
      end.
Defined.

(** Every restart of these runs ends in state 0 with the fitness [-inf],
    the maximum over the restarts, and the state returned is [None]. *)
Lemma best_state_none_at_minus_inf :
  map Extended.rs_final
      (fst (Extended.hill_climb (P := Abyss.problem) 5 0%nat 2))
  = [Some (0%nat, NegInf); Some (0%nat, NegInf)]
  /\ snd (Extended.hill_climb (P := Abyss.problem) 5 0%nat 2)
     = Returned (0%nat, (None, PosInf))
  /\ map Extended.rs_final
         (fst (Extended.random_hill_climb (P := Abyss.problem) 5 0%nat 3 2))
     = [Some (0%nat, NegInf); Some (0%nat, NegInf)]
  /\ snd (Extended.random_hill_climb (P := Abyss.problem) 5 0%nat 3 2)
     = Returned (0%nat, (None, PosInf)).
Proof. vm_compute. repeat split; reflexivity. Qed.

(** ** Committed fitness values climb *)

Lemma sorted_lt_le (l : list Q) : StronglySorted Qlt l -> StronglySorted Qle l.
Proof.
  induction 1 as [|a l _ IH Hall]; constructor; [exact IH|].
  eapply Forall_impl; [|exact Hall]. intros x. apply Qlt_le_weak.
Qed.

Lemma sorted_head_eq (a a' : Q) (l : list Q) :
  a == a' -> StronglySorted Qlt (a' :: l) -> StronglySorted Qlt (a :: l).
Proof.
  intros Ha H. apply StronglySorted_inv in H. destruct H as [Hl Hall].
  constructor; [exact Hl|].
  eapply Forall_impl; [|exact Hall]. intros x Hx. now rewrite Ha.
Qed.

Lemma sorted_push (a a' : Q) (l : list Q) :
  a < a' -> StronglySorted Qlt (a' :: l) -> StronglySorted Qlt (a :: a' :: l).
Proof.
  intros Ha H. constructor; [exact H|].
  apply StronglySorted_inv in H. destruct H as [_ Hall].
  constructor; [exact Ha|].
  eapply Forall_impl; [|exact Hall]. intros x Hx.
  eapply Qlt_trans; eassumption.
Qed.

Section MonotoneImprovement.

Context {W St : Type} {P : Problem W St} {NP : Numpy W St}.

(** The contract of the problem: [set_state] commits the state with the
    fitness [eval_fitness] gives it, and neither [find_neighbors] nor
    [random_neighbor] changes the current fitness. *)
Hypothesis set_state_fitness :
  forall s w, get_fitness (set_state s w) == eval_fitness w s.
Hypothesis find_neighbors_fitness :
  forall w, get_fitness (find_neighbors w) == get_fitness w.
Hypothesis random_neighbor_fitness :
  forall w, get_fitness (snd (random_neighbor w)) == get_fitness w.

Lemma hc_loop_climbs (fuel : nat) (w : W) :
  StronglySorted Qlt (committed w (fst (hc_loop fuel w))).
Proof.
  unfold committed. revert w.
  induction fuel as [|fuel IH]; intros w; simpl.
  - repeat constructor.
  - destruct (Qgtb _ _) eqn:E; simpl; [|repeat constructor; fail].
    apply Qgtb_true in E. apply sorted_push; [|apply IH].
    rewrite set_state_fitness, <- (find_neighbors_fitness w). exact E.
Qed.

Lemma rhc_loop_climbs (k fuel : nat) (w : W) (attempts : nat) :
  StronglySorted Qlt (committed w (fst (rhc_loop k fuel w attempts))).
Proof.
  unfold committed. revert w attempts.
  induction fuel as [|fuel IH]; intros w a; simpl;
    destruct (a <? k); simpl; try (repeat constructor; fail).
  destruct (Qgtb _ _) eqn:E; simpl.
  - apply Qgtb_true in E. apply sorted_push; [|apply IH].
    rewrite set_state_fitness, <- (random_neighbor_fitness w). exact E.
  - eapply sorted_head_eq; [|apply IH].
    symmetry. apply random_neighbor_fitness.
Qed.

(** C8.  In every restart of [hill_climb] and of [random_hill_climb] the
    fitness of the problem after [reset] and after each [set_state] never
    decreases; it increases at every commit, since a candidate is committed
    only when its fitness is greater than the current one. *)
Theorem committed_fitness_monotone (fuel : nat) (w : W)
    (max_attempts restarts : nat) :
  Forall (fun r => StronglySorted Qle (committed_fitness r)
                   /\ StronglySorted Qlt (committed_fitness r))
         (fst (hill_climb fuel w restarts))
  /\ Forall (fun r => StronglySorted Qle (committed_fitness r)
                      /\ StronglySorted Qlt (committed_fitness r))
            (fst (random_hill_climb fuel w max_attempts restarts)).
Proof.
  split; simpl.
  - unfold hill_climb_internal.
    apply restarts_loop_traces
      with (ok := fun w0 tr _ => StronglySorted Qle (committed w0 tr)
                                 /\ StronglySorted Qlt (committed w0 tr)).
    intros w0. split; [apply sorted_lt_le|]; apply hc_loop_climbs.
  - unfold random_hill_climb_internal.
    apply restarts_loop_traces
      with (ok := fun w0 tr _ => StronglySorted Qle (committed w0 tr)
                                 /\ StronglySorted Qlt (committed w0 tr)).
    intros w0. split; [apply sorted_lt_le|]; apply rhc_loop_climbs.
Qed.

End MonotoneImprovement.

(** The one-max problem keeps the contract. *)
Lemma onemax_set_state_fitness (s : OneMax.bits) (w : OneMax.world) :
  get_fitness (set_state s w) == eval_fitness w s.
Proof. reflexivity. Qed.

Lemma onemax_find_neighbors_fitness (w : OneMax.world) :
  get_fitness (find_neighbors w) == get_fitness w.
Proof. reflexivity. Qed.

Lemma onemax_random_neighbor_fitness (w : OneMax.world) :
  get_fitness (snd (random_neighbor w)) == get_fitness w.
Proof. reflexivity. Qed.

Lemma committed_fitness_monotone_witness :
  Forall (fun r => StronglySorted Qle (committed_fitness r)
                   /\ StronglySorted Qlt (committed_fitness r))
         (fst (random_hill_climb (P := OneMax.problem) 50
                 (OneMax.start 4 1 7) 2 3))
  /\ map (committed_fitness (P := OneMax.problem))
         (fst (random_hill_climb (P := OneMax.problem) 50
                 (OneMax.start 4 1 7) 2 3))
     = [[3]; [2; 3; 4]; [1; 2; 3; 4]].
Proof.
  split.
  - exact (proj2 (committed_fitness_monotone
                    onemax_set_state_fitness onemax_find_neighbors_fitness
                    onemax_random_neighbor_fitness
                    50 (OneMax.start 4 1 7) 2 3)).
  - vm_compute. reflexivity.
Defined.

(** ** Hill climbing stops at a local optimum *)

Section LocalOptimum.

Context {W St : Type} {P : Problem W St} {NP : Numpy W St}.

(** The set that [find_neighbors] caches, and the contract of
    [best_neighbor]: no neighbour in the set is better than the one it
    returns. *)
Variable neighbors : W -> list St.
Hypothesis best_neighbor_best :
  forall w n, In n (neighbors w) ->
              eval_fitness w n <= eval_fitness w (best_neighbor w).

Lemma hc_loop_local_optimum (fuel : nat) (w : W) :
  climb_to_local_optimum neighbors (fst (hc_loop fuel w))
                         (snd (hc_loop fuel w))
  /\ (snd (hc_loop fuel w) = NoFuel -> length (fst (hc_loop fuel w)) = fuel).
Proof.
  revert w. induction fuel as [|fuel IH]; intros w; simpl.
  - split; [constructor | reflexivity].
  - destruct (Qgtb _ _) eqn:E; simpl.
    + apply Qgtb_true in E.
      destruct (IH (set_state (best_neighbor (find_neighbors w))
                              (find_neighbors w))) as [Hrest Hlen].
      split; [|intros H; now rewrite Hlen].
      assert (Hmove : climbs
                {| it_at := find_neighbors w;
                   it_fitness := get_fitness (find_neighbors w);
                   it_next_state := best_neighbor (find_neighbors w);
                   it_next_fitness :=
                     eval_fitness (find_neighbors w)
                                  (best_neighbor (find_neighbors w));
                   it_accepted := true;
                   it_world :=
                     set_state (best_neighbor (find_neighbors w))
                               (find_neighbors w) |})
        by (unfold climbs; simpl; auto 7).
      destruct (snd (hc_loop fuel _)) as [w'| |]; simpl in *.
      * destruct Hrest as (moves & stop & -> & Hmoves & Hstop & Hw').
        eexists (_ :: moves), stop. split; [reflexivity|].
        split; [constructor; assumption|]. split; assumption.
      * exact Hrest.
      * constructor; assumption.
    + apply Qgtb_false in E. split; [|discriminate].
      eexists [], _. split; [reflexivity|]. split; [constructor|].
      split; [|reflexivity].
      unfold stops; simpl. repeat split.
      intros n Hn. eapply Qle_trans; [apply best_neighbor_best, Hn | exact E].
Qed.

(** C6.  In every restart of [hill_climb] the inner loop commits the best
    neighbour in each pass in which its fitness is greater than the current
    one, and returns in the first pass in which it is not, where no
    neighbour has a greater fitness than the current state; until then
    nothing stops it: a loop still running after [fuel] passes has climbed
    in each of them. *)
Theorem local_optimum_stops (fuel : nat) (w : W) (restarts : nat) :
  Forall (fun r =>
            climb_to_local_optimum neighbors (rs_trace r) (rs_end r)
            /\ (rs_end r = NoFuel -> length (rs_trace r) = fuel))
         (fst (hill_climb fuel w restarts)).
Proof.
  simpl. unfold hill_climb_internal.
  apply restarts_loop_traces
    with (ok := fun _ tr ending =>
                  climb_to_local_optimum neighbors tr ending
                  /\ (ending = NoFuel -> length tr = fuel)).
  intros w0. apply hc_loop_local_optimum.
Qed.

End LocalOptimum.

Lemma onemax_argmax_ge (f : OneMax.bits -> Q) (l : list OneMax.bits)
    (best : OneMax.bits) :
  f best <= f (OneMax.argmax f best l)
  /\ forall x, In x l -> f x <= f (OneMax.argmax f best l).
Proof.
  revert best. induction l as [|y l IH]; intros best; simpl.
  - split; [apply Qle_refl | intros x []].
  - destruct (Qgtb (f y) (f best)) eqn:E.
    + apply Qgtb_true in E. destruct (IH y) as [Hy Hl].
      split; [eapply Qle_trans; [apply Qlt_le_weak, E | exact Hy]|].
      intros x [<- | Hx]; auto.
    + apply Qgtb_false in E. destruct (IH best) as [Hb Hl].
      split; [exact Hb|].
      intros x [<- | Hx]; [eapply Qle_trans; eassumption | auto].
Qed.

Lemma onemax_best_neighbor_best (w : OneMax.world) (n : OneMax.bits) :
  In n (OneMax.neighbors w) ->
  eval_fitness w n <= eval_fitness w (best_neighbor w).
Proof.
  simpl. unfold OneMax.best_of.
  destruct (OneMax.neighbors w) as [|x l]; [intros []|].
  destruct (onemax_argmax_ge (OneMax.evaluate w) l x) as [Hx Hl].
  intros [<- | Hn]; auto.
Qed.

Lemma local_optimum_stops_witness :
  Forall (fun r =>
            climb_to_local_optimum OneMax.neighbors (rs_trace r) (rs_end r)
            /\ (rs_end r = NoFuel -> length (rs_trace r) = 20%nat))
         (fst (hill_climb (P := OneMax.problem) 20 (OneMax.start 8 1 5) 3))
  /\ map (fun r => map it_accepted (rs_trace r))
         (fst (hill_climb (P := OneMax.problem) 20 (OneMax.start 8 1 5) 3))
     = [[true; true; true; true; true; true; false];
        [true; true; true; true; true; true; false];
        [true; true; true; true; true; false]].
Proof.
  split.
  - exact (local_optimum_stops OneMax.neighbors onemax_best_neighbor_best
             20 (OneMax.start 8 1 5) 3).
  - vm_compute. reflexivity.
Defined.

(** ** The size of the population *)

Section PopulationSize.

Context {W St : Type} {P : Problem W St} {NP : Numpy W St}.

(** The loop over [range(pop_size)] appends one child per round. *)
Lemma ga_children_length (pop_size : nat) (mp : Q) (n : nat) (w : W)
    (next_gen gen : list St) (w' : W) :
  ga_children pop_size mp n w next_gen = Returned (gen, w') ->
  length gen = (length next_gen + n)%nat.
Proof.
  revert w next_gen. induction n as [|n IH]; intros w next_gen; simpl.
  - intros [= <- _]. lia.
  - destruct (nth_error _ _) as [p1|]; [|discriminate].
    destruct (nth_error _ _) as [p2|]; [|discriminate].
    intros H. apply IH in H. rewrite H, length_app. simpl. lia.
Qed.

(** The contract of the problem: [set_population] stores the population it
    is given, [set_state] leaves the population alone, and [sample_pop(n)]
    draws [n] states. *)
Hypothesis set_population_stores :
  forall pop w, get_population (set_population pop w) = pop.
Hypothesis set_state_population :
  forall s w, get_population (set_state s w) = get_population w.
Hypothesis sample_pop_length :
  forall n w, length (fst (sample_pop n w)) = n.

Lemma ga_loop_population (pop_size : nat) (mp : Q) (k fuel : nat) (w : W)
    (attempts : nat) :
  Forall (fun g => length (gn_population g) = pop_size
                   /\ get_population (gn_world g) = gn_population g)
         (fst (ga_loop pop_size mp k fuel w attempts)).
Proof.
  revert w attempts.
  induction fuel as [|fuel IH]; intros w a; simpl;
    destruct (a <? k); simpl; try (constructor; fail).
  destruct (ga_children _ _ _ _ _) as [[next_gen w2]| |] eqn:E; simpl;
    try (constructor; fail).
  apply ga_children_length in E. simpl in E.
  destruct (Qgtb _ _); simpl; (constructor; [|apply IH]); simpl;
    (split; [exact E|]);
    rewrite ?set_state_population; apply set_population_stores.
Qed.

Lemma mimic_loop_population (pop_size : nat) (keep_pct : Q) (k fuel : nat)
    (w : W) (attempts : nat) :
  Forall (fun g => length (gn_population g) = pop_size
                   /\ get_population (gn_world g) = gn_population g)
         (fst (mimic_loop pop_size keep_pct k fuel w attempts)).
Proof.
  revert w attempts.
  induction fuel as [|fuel IH]; intros w a; simpl;
    destruct (a <? k); simpl; try (constructor; fail).
  destruct (Qgtb _ _); simpl; (constructor; [|apply IH]); simpl;
    (split; [apply sample_pop_length|]);
    rewrite ?set_state_population; apply set_population_stores.
Qed.

(** C9.  In every generation of [genetic_alg] and of [mimic] the population
    handed to [set_population] has [pop_size] members ([genetic_alg] has
    appended exactly [pop_size] children, [mimic] has asked [sample_pop] for
    [pop_size] states), and it is the population the problem holds when the
    generation ends. *)
Theorem population_size_constant (fuel : nat) (w : W) (pop_size : nat)
    (mutation_prob keep_pct : Q) (max_attempts : nat) :
  Forall (fun g => length (gn_population g) = pop_size
                   /\ length (get_population (gn_world g)) = pop_size)
         (fst (genetic_alg fuel w pop_size mutation_prob max_attempts))
  /\ Forall (fun g => length (gn_population g) = pop_size
                      /\ length (get_population (gn_world g)) = pop_size)
            (fst (mimic fuel w pop_size keep_pct max_attempts)).
Proof.
  split; simpl.
  - eapply Forall_impl; [|apply ga_loop_population].
    intros g [Hlen ->]. auto.
  - eapply Forall_impl; [|apply mimic_loop_population].
    intros g [Hlen ->]. auto.
Qed.

End PopulationSize.

Lemma onemax_set_population_stores (pop : list OneMax.bits)
    (w : OneMax.world) :
  get_population (set_population pop w) = pop.
Proof. reflexivity. Qed.

Lemma onemax_set_state_population (s : OneMax.bits) (w : OneMax.world) :
  get_population (set_state s w) = get_population w.
Proof. reflexivity. Qed.

Lemma onemax_sample_pop_length (n : nat) (w : OneMax.world) :
  length (fst (sample_pop n w)) = n.
Proof. simpl. now rewrite length_map, length_seq. Qed.

Lemma population_size_constant_witness :
  (Forall (fun g => length (gn_population g) = 4%nat
                    /\ length (get_population (gn_world g)) = 4%nat)
          (fst (genetic_alg (P := OneMax.problem) 50 (OneMax.start 4 1 5)
                            4 (1 # 10) 3))
   /\ Forall (fun g => length (gn_population g) = 4%nat
                       /\ length (get_population (gn_world g)) = 4%nat)
             (fst (mimic (P := OneMax.problem) 50 (OneMax.start 4 1 5)
                         4 (1 # 10) 3)))
  /\ length (fst (genetic_alg (P := OneMax.problem) 50 (OneMax.start 4 1 5)
                              4 (1 # 10) 3)) = 5%nat
  /\ length (fst (mimic (P := OneMax.problem) 50 (OneMax.start 4 1 5)
                        4 (1 # 10) 3)) = 4%nat.
Proof.
  split.
  - exact (population_size_constant onemax_set_population_stores
             onemax_set_state_population onemax_sample_pop_length
             50 (OneMax.start 4 1 5) 4 (1 # 10) (1 # 10) 3).
  - split; vm_compute; reflexivity.
Defined.

(** * Further properties of the drivers *)

(** ** The clock of simulated annealing and moves on a plateau *)

Section AnnealingClock.

Context {W St : Type} {P : Problem W St} {NP : Numpy W St}.
Variable schedule : nat -> Q.
Variable max_attempts : nat.

Lemma sa_loop_length (fuel : nat) (w : W) (t attempts : nat) :
  (length (fst (sa_loop schedule max_attempts fuel w t attempts)) <= fuel)%nat.
Proof.
  revert w t attempts.
  induction fuel as [|fuel IH]; intros w t a; simpl;
    destruct (a <? max_attempts); simpl; try lia;
    destruct (Qeq_bool (schedule t) 0); simpl; try lia.
  destruct (Qgtb _ _); [|destruct (Rltb _ _)]; simpl; apply le_n_S, IH.
Qed.

(** X3.  The time counter of [simulated_annealing] starts at 0 and advances
    by one in every pass, accepted or not: the pass number [i] is made at
    time [i] with the temperature [schedule i]. *)
Theorem annealing_clock (fuel : nat) (w : W) :
  let passes := fst (simulated_annealing fuel w schedule max_attempts) in
  map sa_time passes = seq 0 (length passes)
  /\ map sa_temp passes = map schedule (seq 0 (length passes))
  /\ (length passes <= fuel)%nat.
Proof.
  simpl. split; [apply sa_loop_times|]. split.
  - rewrite <- sa_loop_times, map_map. apply map_ext_in.
    intros it Hit.
    pose proof (sa_loop_passes schedule max_attempts fuel (reset w) 0 0) as H.
    rewrite Forall_forall in H. apply (H it Hit).
  - apply sa_loop_length.
Qed.



(** The contract of [np.random.uniform()]: a number below 1. *)
Hypothesis uniform_below_one : forall w, fst (uniform w) < 1.


End AnnealingClock.



(** ** Ties between restarts, and the world a restart driver leaves *)

Section RestartTies.

Context {W St : Type} {P : Problem W St} {NP : Numpy W St}.

(** The world a returned restart loop hands back is the one in which its
    last restart ended. *)
Lemma restarts_loop_last (loop : W -> list iteration * outcome W) (n : nat)
    (w : W) (b : tracker) (w' : W) (b' : tracker) :
  (0 < n)%nat ->
  snd (restarts_loop loop n w b) = Returned (w', b') ->
  exists before r,
    fst (restarts_loop loop n w b) = before ++ [r]
    /\ rs_end r = Returned w'.
Proof.
  revert w b. induction n as [|n IH]; intros w b Hn; [lia|]. simpl.
  destruct (snd (loop (reset w))) as [w1| |] eqn:E; simpl; try discriminate.
  destruct n as [|n].
  - simpl. intros [= <- <-]. eexists [], _. split; reflexivity.
  - intros Hrun.
    destruct (IH w1 (update_best w1 b) ltac:(lia) Hrun)
      as (before & r & Hrec & Hr).
    eexists (_ :: before), r. rewrite Hrec. split; [reflexivity | exact Hr].
Qed.

(** X9.  The problem is left as the last restart left it: the world that
    [hill_climb] and [random_hill_climb] return is the one in which the last
    restart ended, whichever restart gave the best state. *)
Theorem problem_left_at_last_restart (fuel : nat) (w : W)
    (max_attempts restarts : nat) (c : call) (w' : W) (b : tracker) :
  (0 < restarts)%nat ->
  c = HillClimb restarts \/ c = RandomHillClimb max_attempts restarts ->
  run_internal fuel w c = Returned (w', b) ->
  exists before r,
    match c with
    | HillClimb _ => fst (hill_climb fuel w restarts)
    | _ => fst (random_hill_climb fuel w max_attempts restarts)
    end = before ++ [r]
    /\ rs_end r = Returned w'
    /\ final_of r = Some (get_state w', get_fitness w').
Proof.
  intros Hn Hc Hrun.
  assert (G : forall loop,
             snd (restarts_loop loop restarts w tracker_init)
             = Returned (w', b) ->
             exists before r,
               fst (restarts_loop loop restarts w tracker_init)
               = before ++ [r]
               /\ rs_end r = Returned w'
               /\ final_of r = Some (get_state w', get_fitness w')).
  { intros loop Hloop.
    destruct (restarts_loop_last loop restarts w tracker_init w' b Hn Hloop)
      as (before & r & Hrec & Hr).
    exists before, r. split; [exact Hrec|]. split; [exact Hr|].
    unfold final_of. now rewrite Hr. }
  destruct Hc as [-> | ->]; simpl in *; apply G; exact Hrun.
Qed.

End RestartTies.

Section ExtendedTies.

Context {W St : Type} {P : Extended.Problem W St}.

(** X1.  Ties between restarts go to the earliest.  A call of [hill_climb]
    or [random_hill_climb] in which no loop accepts more than [n]
    candidates, given the fuel for it, and in which some restart ended with
    a fitness above [-inf], returns the state and fitness of the first
    restart that ended with the greatest fitness: the restarts before it
    ended lower or with NaN, those after it no higher, since a later restart
    replaces the best only with a fitness that is greater. *)
Theorem first_restart_wins_ties (c : Extended.call) (fuel : nat) (w : W)
    (n : nat) :
  Forall (fun r => (accepted_count (Extended.rs_flags r) <= n)%nat)
         (fst (Extended.run fuel w c)) ->
  (n * (Extended.max_attempts_of c + 1) + Extended.max_attempts_of c
   < fuel)%nat ->
  existsb Extended.beats_initial (fst (Extended.run fuel w c)) = true ->
  exists (w' : W) (b : @tracker St),
    snd (Extended.run_internal fuel w c) = Returned (w', b)
    /\ Extended.first_best (fst (Extended.run fuel w c)) b
    /\ snd (Extended.run fuel w c)
       = Returned (w', (best_state b,
                        mul (Extended.get_maximize w') (best_fitness b))).
Proof.
  rewrite ext_run_orient. simpl fst. simpl snd. intros Hn Hlt Hex.
  destruct (ext_run_internal_returns c fuel w n Hn Hlt) as (w' & b & Hrun).
  exists w', b. split; [exact Hrun|]. rewrite Hrun.
  split; [|reflexivity].
  destruct (ext_run_internal_loop c fuel w) as [loop Hloop].
  rewrite Hloop in *.
  exact (proj1 (ext_restarts_loop_tracker loop _ w w' b Hrun) Hex).
Qed.

End ExtendedTies.

Lemma first_restart_wins_ties_witness :
  exists (w' : OneMax.world) (b : @tracker OneMax.bits),
    Extended.first_best
      (fst (Extended.run (P := lift OneMax.problem) 50 (OneMax.start 4 1 7)
              (Extended.RandomHillClimb 1 2))) b
    /\ map Extended.rs_final
           (fst (Extended.run (P := lift OneMax.problem) 50
                   (OneMax.start 4 1 7) (Extended.RandomHillClimb 1 2)))
       = [Some ([true; true; true; false], Fin 3);
          Some ([true; false; true; true], Fin 3)]
    /\ snd (Extended.run (P := lift OneMax.problem) 50 (OneMax.start 4 1 7)
              (Extended.RandomHillClimb 1 2))
       = Returned (w', (Some [true; true; true; false], Fin 3)).
Proof.
  destruct (first_restart_wins_ties (P := lift OneMax.problem)
              (Extended.RandomHillClimb 1 2) 50 (OneMax.start 4 1 7) 4)
    as (w' & b & E & Hfirst & Hret).
  - vm_compute. repeat constructor.
  - vm_compute. lia.
  - vm_compute. reflexivity.
  - exists w', b. split; [exact Hfirst|]. split; [vm_compute; reflexivity|].
    rewrite Hret. vm_compute in E. injection E as <- <-.
    vm_compute. reflexivity.
Defined.

Lemma problem_left_at_last_restart_witness :
  exists (w' : OneMax.world) (b : @tracker OneMax.bits)
         (before : list (@restart OneMax.world OneMax.bits))
         (r : @restart OneMax.world OneMax.bits),
    fst (random_hill_climb (P := OneMax.problem) 50 (OneMax.start 4 1 7) 1 2)
    = before ++ [r]
    /\ rs_end r = Returned w'
    /\ get_state w' = [true; false; true; true]
    /\ best_state b = Some [true; true; true; false].
Proof.
  destruct (run_internal (P := OneMax.problem) 50 (OneMax.start 4 1 7)
              (RandomHillClimb 1 2)) as [[w' b]| |] eqn:E;
    try (vm_compute in E; discriminate).
  destruct (problem_left_at_last_restart (P := OneMax.problem) 50
              (OneMax.start 4 1 7) 1 2 (RandomHillClimb 1 2) w' b
              (Nat.lt_0_succ 1) (or_intror eq_refl) E)
    as (before & r & Hrec & Hr & _).
  exists w', b, before, r. split; [exact Hrec|]. split; [exact Hr|].
  vm_compute in E. injection E as <- <-. split; reflexivity.
Defined.

(** ** No pass lowers the fitness; the best state ever committed *)

Section FitnessKept.

Context {W St : Type} {P : Problem W St} {NP : Numpy W St}.

(** The contract of the problem: [set_state] commits the state with the
    fitness [eval_fitness] gives it, and no other method that the loops
    call, nor NumPy's generator, changes the current fitness. *)
Hypothesis set_state_fitness :
  forall s w, get_fitness (set_state s w) == eval_fitness w s.
Hypothesis find_neighbors_fitness :
  forall w, get_fitness (find_neighbors w) == get_fitness w.
Hypothesis random_neighbor_fitness :
  forall w, get_fitness (snd (random_neighbor w)) == get_fitness w.
Hypothesis eval_mate_probs_fitness :
  forall w, get_fitness (eval_mate_probs w) == get_fitness w.
Hypothesis choice_fitness :
  forall n probs w, get_fitness (snd (choice n probs w)) == get_fitness w.
Hypothesis reproduce_fitness :
  forall p1 p2 mp w,
    get_fitness (snd (reproduce p1 p2 mp w)) == get_fitness w.
Hypothesis set_population_fitness :
  forall pop w, get_fitness (set_population pop w) == get_fitness w.
Hypothesis find_top_pct_fitness :
  forall pct w, get_fitness (find_top_pct pct w) == get_fitness w.
Hypothesis eval_node_probs_fitness :
  forall w, get_fitness (eval_node_probs w) == get_fitness w.
Hypothesis sample_pop_fitness :
  forall n w, get_fitness (snd (sample_pop n w)) == get_fitness w.

Lemma hc_loop_kept (fuel : nat) (w : W) :
  fitness_kept (get_fitness w) (pass_steps (fst (hc_loop fuel w))).
Proof.
  revert w. induction fuel as [|fuel IH]; intros w; simpl; [exact I|].
  destruct (Qgtb _ _) eqn:E; simpl.
  - split; [|apply IH].
    rewrite set_state_fitness, <- (find_neighbors_fitness w).
    now apply Qgtb_true.
  - split; [apply find_neighbors_fitness | exact I].
Qed.

Lemma rhc_loop_kept (k fuel : nat) (w : W) (attempts : nat) :
  fitness_kept (get_fitness w)
               (pass_steps (fst (rhc_loop k fuel w attempts))).
Proof.
  revert w attempts. induction fuel as [|fuel IH]; intros w a; simpl;
    destruct (a <? k); simpl; try exact I.
  destruct (Qgtb _ _) eqn:E; simpl; (split; [|apply IH]).
  - rewrite set_state_fitness, <- (random_neighbor_fitness w).
    now apply Qgtb_true.
  - apply random_neighbor_fitness.
Qed.

Lemma ga_children_fitness (pop_size : nat) (mp : Q) (n : nat) (w : W)
    (acc next_gen : list St) (w' : W) :
  ga_children pop_size mp n w acc = Returned (next_gen, w') ->
  get_fitness w' == get_fitness w.
Proof.
  revert w acc. induction n as [|n IH]; intros w acc; simpl.
  - intros [= _ <-]. reflexivity.
  - destruct (nth_error _ _) as [p1|]; [|discriminate].
    destruct (nth_error _ _) as [p2|]; [|discriminate].
    intros Hrun. rewrite (IH _ _ Hrun), reproduce_fitness.
    apply choice_fitness.
Qed.

Lemma ga_loop_kept (pop_size : nat) (mp : Q) (k fuel : nat) (w : W)
    (attempts : nat) :
  fitness_kept (get_fitness w)
               (generation_steps (fst (ga_loop pop_size mp k fuel w attempts))).
Proof.
  revert w attempts. induction fuel as [|fuel IH]; intros w a; simpl;
    destruct (a <? k); simpl; try exact I.
  destruct (ga_children _ _ _ _ _) as [[next_gen w2]| |] eqn:Ec; simpl;
    try exact I.
  assert (Hw : get_fitness (set_population next_gen w2) == get_fitness w).
  { rewrite set_population_fitness, (ga_children_fitness _ _ _ _ _ _ _ Ec).
    apply eval_mate_probs_fitness. }
  destruct (Qgtb _ _) eqn:E; simpl; (split; [|apply IH]).
  - rewrite set_state_fitness, <- Hw. now apply Qgtb_true.
  - exact Hw.
Qed.

Lemma mimic_loop_kept (pop_size : nat) (keep_pct : Q) (k fuel : nat)
    (w : W) (attempts : nat) :
  fitness_kept (get_fitness w)
               (generation_steps
                  (fst (mimic_loop pop_size keep_pct k fuel w attempts))).
Proof.
  revert w attempts. induction fuel as [|fuel IH]; intros w a; simpl;
    destruct (a <? k); simpl; try exact I.
  match goal with
  | |- context [Qgtb _ (get_fitness ?w4)] =>
      assert (Hw : get_fitness w4 == get_fitness w)
  end.
  { rewrite set_population_fitness, sample_pop_fitness,
      eval_node_probs_fitness. apply find_top_pct_fitness. }
  destruct (Qgtb _ _) eqn:E; simpl; (split; [|apply IH]).
  - rewrite set_state_fitness, <- Hw. now apply Qgtb_true.
  - exact Hw.
Qed.

(** X5.  No pass of [hill_climb] or [random_hill_climb] and no generation
    of [genetic_alg] or [mimic] lowers the fitness of the problem (unlike
    [simulated_annealing], which commits worse candidates).  Under the
    problem's contract, the fitness when a pass ends is greater than when
    the pass started if the candidate was committed, and equal to it if the
    candidate was rejected; a pass starts where the one before it ended,
    the first one at the world the loop was entered with. *)
Theorem fitness_never_lowered (fuel : nat) (w : W)
    (max_attempts restarts pop_size : nat) (mutation_prob keep_pct : Q) :
  Forall (fun r => fitness_kept (get_fitness (rs_start r))
                                (pass_steps (rs_trace r)))
         (fst (hill_climb fuel w restarts))
  /\ Forall (fun r => fitness_kept (get_fitness (rs_start r))
                                   (pass_steps (rs_trace r)))
            (fst (random_hill_climb fuel w max_attempts restarts))
  /\ fitness_kept (get_fitness (random_pop pop_size (reset w)))
       (generation_steps
          (fst (genetic_alg fuel w pop_size mutation_prob max_attempts)))
  /\ fitness_kept (get_fitness (random_pop pop_size (reset w)))
       (generation_steps (fst (mimic fuel w pop_size keep_pct max_attempts))).
Proof.
  split; [|split; [|split]]; simpl.
  - unfold hill_climb_internal.
    apply restarts_loop_traces
      with (ok := fun w0 tr _ => fitness_kept (get_fitness w0)
                                              (pass_steps tr)).
    intros w0. apply hc_loop_kept.
  - unfold random_hill_climb_internal.
    apply restarts_loop_traces
      with (ok := fun w0 tr _ => fitness_kept (get_fitness w0)
                                              (pass_steps tr)).
    intros w0. apply rhc_loop_kept.
  - apply ga_loop_kept.
  - apply mimic_loop_kept.
Qed.

End FitnessKept.

Lemma onemax_frame :
  (forall w : OneMax.world, get_fitness (eval_mate_probs w) == get_fitness w)
  /\ (forall n probs (w : OneMax.world),
        get_fitness (snd (choice n probs w)) == get_fitness w)
  /\ (forall p1 p2 mp (w : OneMax.world),
        get_fitness (snd (reproduce p1 p2 mp w)) == get_fitness w)
  /\ (forall pop (w : OneMax.world),
        get_fitness (set_population pop w) == get_fitness w)
  /\ (forall pct (w : OneMax.world),
        get_fitness (find_top_pct pct w) == get_fitness w)
  /\ (forall w : OneMax.world,
        get_fitness (eval_node_probs w) == get_fitness w)
  /\ (forall n (w : OneMax.world),
        get_fitness (snd (sample_pop n w)) == get_fitness w).
Proof. repeat split; intros; reflexivity. Qed.

Lemma fitness_never_lowered_witness :
  (Forall (fun r => fitness_kept (get_fitness (rs_start r))
                                 (pass_steps (rs_trace r)))
          (fst (hill_climb (P := OneMax.problem) 50 (OneMax.start 4 1 5) 2))
   /\ Forall (fun r => fitness_kept (get_fitness (rs_start r))
                                    (pass_steps (rs_trace r)))
             (fst (random_hill_climb (P := OneMax.problem) 50
                     (OneMax.start 4 1 5) 3 2))
   /\ fitness_kept
        (get_fitness (random_pop 4 (reset (OneMax.start 4 1 5))))
        (generation_steps
           (fst (genetic_alg (P := OneMax.problem) 50 (OneMax.start 4 1 5)
                             4 (1 # 10) 3)))
   /\ fitness_kept
        (get_fitness (random_pop 4 (reset (OneMax.start 4 1 5))))
        (generation_steps
           (fst (mimic (P := OneMax.problem) 50 (OneMax.start 4 1 5)
                       4 (1 # 10) 3))))
  /\ get_fitness (random_pop 4 (reset (OneMax.start 4 1 5))) = 2
  /\ generation_steps
       (fst (genetic_alg (P := OneMax.problem) 50 (OneMax.start 4 1 5)
                         4 (1 # 10) 3))
     = [(true, 3); (true, 4); (false, 4); (false, 4); (false, 4)].
Proof.
  split.
  - exact (fitness_never_lowered
             onemax_set_state_fitness onemax_find_neighbors_fitness
             onemax_random_neighbor_fitness
             (proj1 onemax_frame)
             (proj1 (proj2 onemax_frame))
             (proj1 (proj2 (proj2 onemax_frame)))
             (proj1 (proj2 (proj2 (proj2 onemax_frame))))
             (proj1 (proj2 (proj2 (proj2 (proj2 onemax_frame)))))
             (proj1 (proj2 (proj2 (proj2 (proj2 (proj2 onemax_frame))))))
             (proj2 (proj2 (proj2 (proj2 (proj2 (proj2 onemax_frame))))))
             50 (OneMax.start 4 1 5) 3 2 4 (1 # 10) (1 # 10)).
  - split; vm_compute; reflexivity.
Defined.


Section BestEverCommitted.

Context {W St : Type} {P : Problem W St} {NP : Numpy W St}.

Hypothesis set_state_fitness :
  forall s w, get_fitness (set_state s w) == eval_fitness w s.
Hypothesis find_neighbors_fitness :
  forall w, get_fitness (find_neighbors w) == get_fitness w.
Hypothesis random_neighbor_fitness :
  forall w, get_fitness (snd (random_neighbor w)) == get_fitness w.




End BestEverCommitted.


(** ** An attempt loop stops after exactly max_attempts rejections *)

Lemma stopped_nil (k attempts : nat) :
  (k <= attempts)%nat -> stopped_after k attempts [].
Proof.
  intros H. left. replace (k - attempts)%nat with 0%nat by lia. reflexivity.
Qed.

Lemma stopped_accept (k attempts : nat) (flags : list bool) :
  stopped_after k 0 flags -> stopped_after k attempts (true :: flags).
Proof.
  intros [-> | [before ->]]; right.
  - exists []. now rewrite Nat.sub_0_r.
  - exists (true :: before). reflexivity.
Qed.

Lemma stopped_reject (k attempts : nat) (flags : list bool) :
  (attempts < k)%nat ->
  stopped_after k (attempts + 1) flags ->
  stopped_after k attempts (false :: flags).
Proof.
  intros Ha [-> | [before ->]].
  - left. replace (k - attempts)%nat with (S (k - (attempts + 1))) by lia.
    reflexivity.
  - right. exists (false :: before). reflexivity.
Qed.

Section ExactStop.

Context {W St : Type} {P : Problem W St} {NP : Numpy W St}.

Lemma rhc_loop_stopped (k fuel : nat) (w : W) (attempts : nat) (w' : W) :
  snd (rhc_loop k fuel w attempts) = Returned w' ->
  stopped_after k attempts (map it_accepted (fst (rhc_loop k fuel w attempts))).
Proof.
  revert w attempts. induction fuel as [|fuel IH]; intros w a; simpl;
    destruct (Nat.ltb_spec a k); simpl; try discriminate;
    try (intros _; now apply stopped_nil).
  destruct (Qgtb _ _); simpl; intros Hret.
  - apply stopped_accept, IH, Hret.
  - apply stopped_reject; [assumption | apply IH, Hret].
Qed.

Lemma sa_loop_stopped (schedule : nat -> Q) (k fuel : nat) (w : W)
    (t attempts : nat) (w' : W) :
  (forall t', ~ schedule t' == 0) ->
  snd (sa_loop schedule k fuel w t attempts) = Returned w' ->
  stopped_after k attempts
    (map sa_accepted (fst (sa_loop schedule k fuel w t attempts))).
Proof.
  intros Hnz.
  assert (Hs : forall t', Qeq_bool (schedule t') 0 = false).
  { intros t'. destruct (Qeq_bool (schedule t') 0) eqn:E; [|reflexivity].
    apply Qeq_bool_iff in E. now apply Hnz in E. }
  revert w t attempts. induction fuel as [|fuel IH]; intros w t a; simpl;
    rewrite Hs; destruct (Nat.ltb_spec a k); simpl; try discriminate;
    try (intros _; now apply stopped_nil).
  destruct (Qgtb _ _); [|destruct (Rltb _ _)]; simpl; intros Hret.
  - apply stopped_accept, (IH _ _ _ Hret).
  - apply stopped_accept, (IH _ _ _ Hret).
  - apply stopped_reject; [assumption | apply (IH _ _ _ Hret)].
Qed.

Lemma ga_loop_stopped (pop_size : nat) (mp : Q) (k fuel : nat) (w : W)
    (attempts : nat) (w' : W) :
  snd (ga_loop pop_size mp k fuel w attempts) = Returned w' ->
  stopped_after k attempts
    (map gn_accepted (fst (ga_loop pop_size mp k fuel w attempts))).
Proof.
  revert w attempts. induction fuel as [|fuel IH]; intros w a; simpl;
    destruct (Nat.ltb_spec a k); simpl; try discriminate;
    try (intros _; now apply stopped_nil).
  destruct (ga_children _ _ _ _ _) as [[next_gen w2]| |]; simpl;
    try discriminate.
  destruct (Qgtb _ _); simpl; intros Hret.
  - apply stopped_accept, IH, Hret.
  - apply stopped_reject; [assumption | apply IH, Hret].
Qed.

Lemma mimic_loop_stopped (pop_size : nat) (keep_pct : Q) (k fuel : nat)
    (w : W) (attempts : nat) (w' : W) :
  snd (mimic_loop pop_size keep_pct k fuel w attempts) = Returned w' ->
  stopped_after k attempts
    (map gn_accepted (fst (mimic_loop pop_size keep_pct k fuel w attempts))).
Proof.
  revert w attempts. induction fuel as [|fuel IH]; intros w a; simpl;
    destruct (Nat.ltb_spec a k); simpl; try discriminate;
    try (intros _; now apply stopped_nil).
  destruct (Qgtb _ _); simpl; intros Hret.
  - apply stopped_accept, IH, Hret.
  - apply stopped_reject; [assumption | apply IH, Hret].
Qed.

(** Every restart of a restart loop that returned has returned. *)
Lemma restarts_loop_returned (loop : W -> list iteration * outcome W)
    (n : nat) (w : W) (b : tracker) (r : W * tracker) :
  snd (restarts_loop loop n w b) = Returned r ->
  Forall (fun rec => exists w1, rs_end rec = Returned w1)
         (fst (restarts_loop loop n w b)).
Proof.
  revert w b. induction n as [|n IH]; intros w b; simpl; [constructor|].
  destruct (snd (loop (reset w))) as [w1| |]; simpl; try discriminate.
  intros Hret. constructor; [simpl; eauto | apply IH, Hret].
Qed.

Lemma returned_map {A B : Type} (f : A -> B) (o : outcome A) (b : B) :
  outcome_map f o = Returned b -> exists a, o = Returned a.
Proof. destruct o; simpl; try discriminate. eauto. Qed.

(** X2.  When a call of [random_hill_climb], [genetic_alg] or [mimic]
    returns, each of its attempt loops ended on exactly [max_attempts]
    rejections in a row, counted from the start of the loop or from the last
    accepted candidate; so does the loop of [simulated_annealing] when the
    schedule is never zero.  No loop gives up earlier. *)
Theorem stops_after_max_attempts_rejections (c : call) (fuel : nat) (w : W)
    (r : result) :
  (forall schedule k, c = SimulatedAnnealing schedule k ->
                      forall t, ~ schedule t == 0) ->
  run fuel w c = Returned r ->
  Forall (stopped_after (max_attempts_of c) 0) (decisions fuel w c).
Proof.
  intros Hschedule. rewrite run_orient. intros Hrun.
  apply returned_map in Hrun. destruct Hrun as [[w' b] Hrun].
  destruct c as [restarts | k restarts | schedule k | pop_size mp k
                | pop_size keep_pct k]; simpl in *.
  - constructor.
  - unfold random_hill_climb_internal in *.
    pose proof (restarts_loop_returned _ _ _ _ _ Hrun) as Hret.
    pose proof (restarts_loop_traces (fun w0 => rhc_loop k fuel w0 0)
                  (fun _ tr ending =>
                     forall w1, ending = Returned w1 ->
                       stopped_after k 0 (map it_accepted tr))
                  restarts w tracker_init
                  (fun w0 w1 => rhc_loop_stopped k fuel w0 0 w1)) as Htr.
    apply Forall_map. rewrite Forall_forall in *. intros rec Hrec.
    destruct (Hret rec Hrec) as [w1 Hw1]. exact (Htr rec Hrec w1 Hw1).
  - apply returned_map in Hrun. destruct Hrun as [w1 Hw1].
    constructor; [|constructor].
    eapply sa_loop_stopped; [exact (Hschedule schedule k eq_refl)|exact Hw1].
  - apply returned_map in Hrun. destruct Hrun as [w1 Hw1].
    constructor; [|constructor]. eapply ga_loop_stopped, Hw1.
  - apply returned_map in Hrun. destruct Hrun as [w1 Hw1].
    constructor; [|constructor]. eapply mimic_loop_stopped, Hw1.
Qed.

(** X8.  With [max_attempts = 0] no candidate is drawn or evaluated: every
    restart of [random_hill_climb] ends where [reset] left the problem, and
    [simulated_annealing], [genetic_alg] and [mimic] report the state after
    [reset] (and [random_pop]) without a single pass. *)
Theorem zero_attempts (fuel : nat) (w : W) (restarts pop_size : nat)
    (schedule : nat -> Q) (mutation_prob keep_pct : Q) :
  Forall (fun rec => rs_trace rec = [] /\ rs_end rec = Returned (rs_start rec))
         (fst (random_hill_climb fuel w 0 restarts))
  /\ length (fst (random_hill_climb fuel w 0 restarts)) = restarts
  /\ simulated_annealing fuel w schedule 0
     = ([], Returned (report (fun s => s) (reset w)))
  /\ genetic_alg fuel w pop_size mutation_prob 0
     = ([], Returned (report (fun s => s) (random_pop pop_size (reset w))))
  /\ mimic fuel w pop_size keep_pct 0
     = ([], Returned (report astype_int (random_pop pop_size (reset w)))).
Proof.
  assert (Hloop : forall w0, rhc_loop 0 fuel w0 0 = ([], Returned w0))
    by (intros w0; destruct fuel; reflexivity).
  split; [|split; [|split; [|split]]].
  - simpl. unfold random_hill_climb_internal.
    generalize (@tracker_init St). revert w.
    induction restarts as [|n IH]; intros w0 b; simpl; [constructor|].
    rewrite Hloop. simpl. constructor; [split; reflexivity | apply IH].
  - simpl. unfold random_hill_climb_internal.
    generalize (@tracker_init St). revert w.
    induction restarts as [|n IH]; intros w0 b; simpl; [reflexivity|].
    rewrite Hloop. simpl. now rewrite IH.
  - unfold simulated_annealing. destruct fuel; reflexivity.
  - unfold genetic_alg. destruct fuel; reflexivity.
  - unfold mimic. destruct fuel; reflexivity.
Qed.

End ExactStop.

Lemma stops_after_max_attempts_rejections_witness :
  Forall (stopped_after 2 0)
         (decisions (P := OneMax.problem) 50 (OneMax.start 4 1 7)
                    (RandomHillClimb 2 3))
  /\ decisions (P := OneMax.problem) 50 (OneMax.start 4 1 7)
               (RandomHillClimb 2 3)
     = [[false; false]; [false; true; false; true; false; false];
        [true; true; false; true; false; false]].
Proof.
  split; [|vm_compute; reflexivity].
  destruct (run (P := OneMax.problem) 50 (OneMax.start 4 1 7)
                (RandomHillClimb 2 3)) as [r| |] eqn:E;
    try (vm_compute in E; discriminate).
  apply (stops_after_max_attempts_rejections (RandomHillClimb 2 3) 50
           (OneMax.start 4 1 7) r); [discriminate | exact E].
Defined.

(** ** genetic_alg and the IndexError *)

Section NoIndexError.

Context {W St : Type} {P : Problem W St} {NP : Numpy W St}.

(** The contract of [np.random.choice(n, size=2, ...)]: two indices below
    [n]; and of the problem: [random_pop(n)] makes a population of [n]
    states, [set_population] stores the population it is given, and the
    other calls of a generation leave the population alone. *)
Hypothesis choice_in_range :
  forall n probs w, (0 < n)%nat ->
    (fst (fst (choice n probs w)) < n)%nat
    /\ (snd (fst (choice n probs w)) < n)%nat.
Hypothesis choice_population :
  forall n probs w, get_population (snd (choice n probs w)) = get_population w.
Hypothesis random_pop_length :
  forall n w, length (get_population (random_pop n w)) = n.
Hypothesis eval_mate_probs_population :
  forall w, get_population (eval_mate_probs w) = get_population w.
Hypothesis reproduce_population :
  forall p1 p2 mp w,
    get_population (snd (reproduce p1 p2 mp w)) = get_population w.
Hypothesis set_population_stores :
  forall pop w, get_population (set_population pop w) = pop.
Hypothesis set_state_population :
  forall s w, get_population (set_state s w) = get_population w.

Lemma ga_children_returns (pop_size : nat) (mp : Q) (n : nat) (w : W)
    (next_gen : list St) :
  length (get_population w) = pop_size ->
  (n <= pop_size)%nat ->
  exists gen w',
    ga_children pop_size mp n w next_gen = Returned (gen, w').
Proof.
  revert w next_gen. induction n as [|n IH]; intros w next_gen Hlen Hn;
    simpl; [eauto|].
  destruct (choice_in_range pop_size (get_mate_probs w) w) as [H1 H2];
    [lia|].
  rewrite choice_population.
  destruct (nth_error (get_population w) (fst (fst (choice _ _ w))))
    as [p1|] eqn:E1;
    [|apply nth_error_None in E1; lia].
  destruct (nth_error (get_population w) (snd (fst (choice _ _ w))))
    as [p2|] eqn:E2;
    [|apply nth_error_None in E2; lia].
  apply IH; [|lia].
  now rewrite reproduce_population, choice_population.
Qed.

Lemma ga_loop_never_raises (pop_size : nat) (mp : Q) (k fuel : nat) (w : W)
    (attempts : nat) :
  length (get_population w) = pop_size ->
  snd (ga_loop pop_size mp k fuel w attempts) <> Raised.
Proof.
  revert w attempts. induction fuel as [|fuel IH]; intros w a Hlen; simpl;
    destruct (a <? k); simpl; try discriminate.
  destruct (ga_children_returns pop_size mp pop_size (eval_mate_probs w) [])
    as (gen & w2 & E); [now rewrite eval_mate_probs_population | lia |].
  rewrite E. apply ga_children_length in E. simpl in E.
  destruct (Qgtb _ _); simpl; apply IH;
    now rewrite ?set_state_population, set_population_stores.
Qed.

(** X7.  Under the contracts of [np.random.choice] and of the problem's
    population methods [genetic_alg] never fails on an index: every parent
    index it draws is inside the population, in every generation. *)
Theorem genetic_alg_index_in_range (fuel : nat) (w : W) (pop_size : nat)
    (mutation_prob : Q) (max_attempts : nat) :
  snd (genetic_alg fuel w pop_size mutation_prob max_attempts) <> Raised.
Proof.
  unfold genetic_alg; simpl.
  pose proof (ga_loop_never_raises pop_size mutation_prob max_attempts fuel
                (random_pop pop_size (reset w)) 0
                (random_pop_length pop_size (reset w))) as H.
  destruct (snd (ga_loop _ _ _ _ _ _)); simpl; congruence.
Qed.

End NoIndexError.

Lemma onemax_choice_in_range (n : nat) (probs : list Q) (w : OneMax.world) :
  (0 < n)%nat ->
  (fst (fst (choice n probs w)) < n)%nat
  /\ (snd (fst (choice n probs w)) < n)%nat.
Proof.
  intros Hn. cbn [choice OneMax.numpy fst snd].
  split; apply Nat.mod_upper_bound; lia.
Qed.

Lemma onemax_random_pop_length (n : nat) (w : OneMax.world) :
  length (get_population (random_pop n w)) = n.
Proof.
  cbn [random_pop get_population OneMax.problem]. simpl.
  unfold OneMax.fresh_pop. now rewrite length_map, length_seq.
Qed.

Lemma genetic_alg_index_in_range_witness :
  snd (genetic_alg (P := OneMax.problem) 50 (OneMax.start 4 1 5)
                   4 (1 # 10) 3) <> Raised
  /\ length (fst (genetic_alg (P := OneMax.problem) 50 (OneMax.start 4 1 5)
                              4 (1 # 10) 3)) = 5%nat.
Proof.
  split; [|vm_compute; reflexivity].
  exact (genetic_alg_index_in_range onemax_choice_in_range
           (fun n probs w => eq_refl) onemax_random_pop_length
           (fun w => eq_refl) (fun p1 p2 mp w => eq_refl)
           onemax_set_population_stores onemax_set_state_population
           50 (OneMax.start 4 1 5) 4 (1 # 10) 3).
Defined.

(** ** The orientation, once more: every call that ends returns it *)

Section OrientationReturned.

Context {W St : Type} {P : Problem W St} {NP : Numpy W St}.

Lemma hc_loop_no_raise (fuel : nat) (w : W) : snd (hc_loop fuel w) <> Raised.
Proof.
  revert w. induction fuel as [|fuel IH]; intros w; simpl; [discriminate|].
  destruct (Qgtb _ _); simpl; [apply IH | discriminate].
Qed.

Lemma rhc_loop_no_raise (k fuel : nat) (w : W) (attempts : nat) :
  snd (rhc_loop k fuel w attempts) <> Raised.
Proof.
  revert w attempts. induction fuel as [|fuel IH]; intros w a; simpl;
    destruct (a <? k); simpl; try discriminate.
  destruct (Qgtb _ _); simpl; apply IH.
Qed.

Lemma sa_loop_no_raise (schedule : nat -> Q) (k fuel : nat) (w : W)
    (t attempts : nat) :
  snd (sa_loop schedule k fuel w t attempts) <> Raised.
Proof.
  revert w t attempts. induction fuel as [|fuel IH]; intros w t a; simpl;
    destruct (a <? k); simpl; try discriminate;
    destruct (Qeq_bool (schedule t) 0); simpl; try discriminate.
  destruct (Qgtb _ _); [|destruct (Rltb _ _)]; simpl; apply IH.
Qed.

Lemma mimic_loop_no_raise (pop_size : nat) (keep_pct : Q) (k fuel : nat)
    (w : W) (attempts : nat) :
  snd (mimic_loop pop_size keep_pct k fuel w attempts) <> Raised.
Proof.
  revert w attempts. induction fuel as [|fuel IH]; intros w a; simpl;
    destruct (a <? k); simpl; try discriminate.
  destruct (Qgtb _ _); simpl; apply IH.
Qed.

Lemma restarts_loop_no_raise (loop : W -> list iteration * outcome W)
    (n : nat) (w : W) (b : tracker) :
  (forall w0, snd (loop w0) <> Raised) ->
  snd (restarts_loop loop n w b) <> Raised.
Proof.
  intros Hloop. revert w b.
  induction n as [|n IH]; intros w b; simpl; [discriminate|].
  specialize (Hloop (reset w)).
  destruct (snd (loop (reset w))) as [w1| |]; simpl;
    [apply IH | congruence | discriminate].
Qed.

(** Only [genetic_alg] indexes anything: the other drivers never raise. *)
Lemma run_internal_no_raise (c : call) (fuel : nat) (w : W) :
  (forall pop_size mp k, c <> GeneticAlg pop_size mp k) ->
  run_internal fuel w c <> Raised.
Proof.
  destruct c as [restarts | k restarts | schedule k | pop_size mp k
                | pop_size keep_pct k]; simpl; intros Hc.
  - apply restarts_loop_no_raise, hc_loop_no_raise.
  - apply restarts_loop_no_raise. intros w0. apply rhc_loop_no_raise.
  - pose proof (sa_loop_no_raise schedule k fuel (reset w) 0 0) as H.
    destruct (snd (sa_loop _ _ _ _ _ _)); simpl; congruence.
  - exfalso. now apply (Hc pop_size mp k).
  - pose proof (mimic_loop_no_raise pop_size keep_pct k fuel
                  (random_pop pop_size (reset w)) 0) as H.
    destruct (snd (mimic_loop _ _ _ _ _ _)); simpl; congruence.
Qed.

(** A call in which no loop accepts more than [n] candidates has ended when
    it was given more fuel than [n * (max_attempts + 1) + max_attempts]. *)
Lemma run_internal_finished (c : call) (fuel : nat) (w : W) (n : nat) :
  Forall (fun flags => (accepted_count flags <= n)%nat)
         (all_decisions fuel w c) ->
  (n * (max_attempts_of c + 1) + max_attempts_of c < fuel)%nat ->
  finished (run_internal fuel w c) = true.
Proof.
  destruct c as [restarts | k restarts | schedule k | pop_size mp k
                | pop_size keep_pct k]; simpl; intros Hn Hlt.
  - unfold hill_climb_internal.
    apply restarts_loop_finished
      with (ok := fun tr => (accepted_count (map it_accepted tr) <= n)%nat).
    + intros w0 Hw0. destruct (snd (hc_loop fuel w0)) eqn:E; try reflexivity.
      apply hc_loop_nofuel in E. lia.
    + apply Forall_map in Hn. exact Hn.
  - unfold random_hill_climb_internal.
    apply restarts_loop_finished
      with (ok := fun tr => (accepted_count (map it_accepted tr) <= n)%nat).
    + intros w0 Hw0.
      apply (attempt_loop_finished it_accepted k n fuel); auto.
      * apply rhc_loop_attempts; lia.
      * apply rhc_loop_nofuel.
    + apply Forall_map in Hn. exact Hn.
  - rewrite finished_map. inversion Hn; subst.
    apply (attempt_loop_finished sa_accepted k n fuel); auto.
    + apply sa_loop_attempts; lia.
    + apply sa_loop_nofuel.
  - rewrite finished_map. inversion Hn; subst.
    apply (attempt_loop_finished gn_accepted k n fuel); auto.
    + apply ga_loop_attempts; lia.
    + apply ga_loop_nofuel.
  - rewrite finished_map. inversion Hn; subst.
    apply (attempt_loop_finished gn_accepted k n fuel); auto.
    + apply mimic_loop_attempts; lia.
    + apply mimic_loop_nofuel.
Qed.

(** C1.  Whatever the driver and however the call ends, what it hands back
    is the internal run with the tracked best fitness multiplied by the
    problem's [get_maximize()], once, at the return; the internal run never
    reads the orientation (it is the same under any other [get_maximize]).
    A call that does not accept candidates without bound ends, and a call
    of a driver other than [genetic_alg] that ends returns: the state it
    tracked with the product as fitness, which is the internal best for an
    orientation of 1 and its negation for an orientation of -1. *)
Theorem orientation_applied_once (c : call) (fuel : nat) (w : W) :
  run fuel w c = outcome_map orient (run_internal fuel w c)
  /\ (forall m : W -> Q,
        @run_internal W St (with_maximize m P) NP fuel w c
        = run_internal fuel w c)
  /\ (forall n : nat,
        Forall (fun flags => (accepted_count flags <= n)%nat)
               (all_decisions fuel w c) ->
        (n * (max_attempts_of c + 1) + max_attempts_of c < fuel)%nat ->
        finished (run fuel w c) = true
        /\ ((forall pop_size mp k, c <> GeneticAlg pop_size mp k) ->
            exists (w' : W) (b : tracker),
              run_internal fuel w c = Returned (w', b)
              /\ run fuel w c
                 = Returned (w', (best_state b,
                                  mul (Fin (get_maximize w'))
                                      (best_fitness b)))))
  /\ (forall (w' : W) (s : option St) (f : pyfloat),
        run fuel w c = Returned (w', (s, f)) ->
        exists b : tracker,
          run_internal fuel w c = Returned (w', b)
          /\ s = best_state b
          /\ f = mul (Fin (get_maximize w')) (best_fitness b)
          /\ (get_maximize w' == 1 -> eqv f (best_fitness b))
          /\ (get_maximize w' == -1 # 1 -> eqv f (neg (best_fitness b)))).
Proof.
  split; [apply run_orient|].
  split; [intros m; apply run_internal_maximize|].
  split.
  - intros n Hn Hlt.
    pose proof (run_internal_finished c fuel w n Hn Hlt) as Hfin.
    split; [now rewrite run_orient, finished_map|].
    intros Hc. pose proof (run_internal_no_raise c fuel w Hc) as Hraise.
    rewrite run_orient.
    destruct (run_internal fuel w c) as [[w' b]| |]; simpl in *;
      try congruence.
    exists w', b. split; reflexivity.
  - rewrite run_orient. intros w' s f.
    destruct (run_internal fuel w c) as [[w1 b]| |] eqn:E; simpl;
      try discriminate.
    unfold orient; simpl. intros [= <- <- <-].
    exists b. split; [reflexivity|].
    split; [reflexivity|]. split; [reflexivity|].
    pose proof (run_internal_tracked _ _ _ _ _ E) as Hb.
    split; intros Hm; [apply mul_one | apply mul_minus_one]; assumption.
Qed.

End OrientationReturned.

(** The five drivers on a minimisation (orientation -1, objective minus the
    number of ones), annealing on the problem whose neighbour is always
    better (orientation 1) under a schedule that reaches zero: each call
    returns, with the internal best negated, or unchanged. *)
Lemma orientation_applied_once_witness :
  Forall (fun c =>
            exists (w' : OneMax.world) (b : @tracker OneMax.bits),
              run_internal (P := OneMax.problem) 60
                (OneMax.start_weighted 4 (-1 # 1) (-1 # 1) 5) c
              = Returned (w', b)
              /\ run (P := OneMax.problem) 60
                   (OneMax.start_weighted 4 (-1 # 1) (-1 # 1) 5) c
                 = Returned (w', (best_state b, neg (best_fitness b))))
         [HillClimb 2; RandomHillClimb 1 2; Mimic 4 (1 # 10) 3]
  /\ (exists (w' : OneMax.world) (s : option OneMax.bits) (f : pyfloat)
             (b : @tracker OneMax.bits),
        run (P := OneMax.problem) 60
            (OneMax.start_weighted 4 (-1 # 1) (-1 # 1) 5)
            (GeneticAlg 4 (1 # 10) 3)
        = Returned (w', (s, f))
        /\ f = Fin (-4 # 1)
        /\ best_fitness b = Fin 4
        /\ eqv f (neg (best_fitness b)))
  /\ (exists (w' : nat) (b : @tracker nat),
        run_internal (P := Escalator.problem) (NP := Escalator.numpy) 20
                     0%nat (SimulatedAnnealing cooling 3)
        = Returned (w', b)
        /\ run (P := Escalator.problem) (NP := Escalator.numpy) 20 0%nat
               (SimulatedAnnealing cooling 3)
           = Returned (w', (best_state b, best_fitness b))
        /\ best_fitness b = Fin 3).
Proof.
  assert (Hcalls :
            forall c,
              In c [HillClimb 2; RandomHillClimb 1 2; Mimic 4 (1 # 10) 3] ->
              exists (w' : OneMax.world) (b : @tracker OneMax.bits),
                run_internal (P := OneMax.problem) 60
                  (OneMax.start_weighted 4 (-1 # 1) (-1 # 1) 5) c
                = Returned (w', b)
                /\ run (P := OneMax.problem) 60
                     (OneMax.start_weighted 4 (-1 # 1) (-1 # 1) 5) c
                   = Returned (w', (best_state b, neg (best_fitness b)))).
  { intros c Hc.
    destruct (orientation_applied_once (P := OneMax.problem) c 60
                (OneMax.start_weighted 4 (-1 # 1) (-1 # 1) 5))
      as (_ & _ & Htotal & _).
    destruct (Htotal 2%nat) as [_ Hreturns].
    - simpl in Hc. destruct Hc as [<- | [<- | [<- | []]]];
        vm_compute; repeat constructor.
    - simpl in Hc. destruct Hc as [<- | [<- | [<- | []]]];
        vm_compute; repeat constructor.
    - destruct Hreturns as (w' & b & Hint & Hrun).
      + simpl in Hc. destruct Hc as [<- | [<- | [<- | []]]]; discriminate.
      + exists w', b. split; [exact Hint|]. rewrite Hrun.
        assert (Hw : get_maximize w' = -1 # 1 /\ tracked (best_fitness b)).
        { simpl in Hc. destruct Hc as [<- | [<- | [<- | []]]];
            vm_compute in Hint; injection Hint as <- <-; split;
            solve [reflexivity | exact I]. }
        destruct Hw as [-> Hb].
        destruct (best_fitness b) as [|q| |]; try contradiction;
          [reflexivity|].
        destruct q as [[|n|n] d]; reflexivity. }
  split; [|split].
  - apply Forall_forall. exact Hcalls.
  - destruct (run (P := OneMax.problem) 60
                (OneMax.start_weighted 4 (-1 # 1) (-1 # 1) 5)
                (GeneticAlg 4 (1 # 10) 3)) as [[w' [s f]]| |] eqn:E;
      try (vm_compute in E; discriminate).
    destruct (orientation_applied_once (P := OneMax.problem)
                (GeneticAlg 4 (1 # 10) 3) 60
                (OneMax.start_weighted 4 (-1 # 1) (-1 # 1) 5))
      as (_ & _ & _ & Hret).
    destruct (Hret w' s f E) as (b & Hint & _ & _ & _ & Hneg).
    exists w', s, f, b. split; [reflexivity|].
    assert (Hw : get_maximize w' = -1 # 1)
      by (vm_compute in E; injection E as <- _ _; reflexivity).
    split; [vm_compute in E; injection E as _ _ <-; reflexivity|].
    split; [vm_compute in Hint; injection Hint as _ <-; reflexivity|].
    apply Hneg. rewrite Hw. reflexivity.
  - destruct (orientation_applied_once (P := Escalator.problem)
                (NP := Escalator.numpy) (SimulatedAnnealing cooling 3) 20
                0%nat) as (_ & _ & Htotal & _).
    destruct (Htotal 3%nat) as [_ Hreturns].
    + lazy. repeat constructor.
    + vm_compute. repeat constructor.
    + destruct Hreturns as (w' & b & Hint & Hrun); [discriminate|].
      exists w', b. split; [exact Hint|]. rewrite Hrun.
      lazy in Hint. injection Hint as <- <-. split; reflexivity.
Defined.
